(** * SerialDispatch: the wire codec and the dispatch engine

    A shallow embedding of [serialdispatch/serialdispatch.py] (class
    [SerialDispatch]) and the properties of its frame encoder ([publish]),
    its frame decoder and dispatcher ([run]) and its subscriber registry
    ([subscribe], [unsubscribe], [get_data]).

    Conventions.
    - A Python [int] is a [Z]; [&], [>>], [<<] are [Z.land], [Z.shiftr],
      [Z.shiftl] (Python integers are unbounded two's complement, as [Z]).
    - A Python [str] holding text (a topic, a string payload) is the list of
      its code points, [pystr]. The names of the format specifiers, which the
      code only compares and looks up in a table, are [string]s.
    - A message ([msg], a Python list of ints) is a [list Z]: the encoder
      builds a list, not a [bytes] object, so an element may exceed 255.
    - A Python exception is a value of [exn]; code that may raise returns
      [res A]; code that also mutates the object returns [M A], a state and
      exception monad in which the state reached when the exception was
      raised is kept (Python does not roll back).
    - The subscriber registry is a [gmap] (only looked up by key); the topic
      store is an association list in insertion order, because [run]
      iterates over its keys. *)

From Stdlib Require Import ZArith List String Bool Lia.
From stdpp Require Import base option list gmap strings.
Import ListNotations.

Local Open Scope Z_scope.

(** ** Exceptions and results *)

Inductive exn : Type :=
| KeyError | IndexError | TypeError | ValueError
| AttributeError | UnicodeEncodeError.

Inductive res (A : Type) : Type :=
| Ok (a : A)
| Raise (e : exn).

Arguments Ok {A} a.
Arguments Raise {A} e.

Definition rbind {A B} (m : res A) (k : A -> res B) : res B :=
  match m with
  | Ok a => k a
  | Raise e => Raise e
  end.

Declare Scope res_scope.
Delimit Scope res_scope with res.
Notation "'let?' x := m 'in' k" := (rbind m (fun x => k))
  (at level 10, x name, m at level 100, k at level 200) : res_scope.
Notation "'let?' ' p := m 'in' k" :=
  (rbind m (fun x => match x with p => k end))
  (at level 10, p pattern, m at level 100, k at level 200) : res_scope.

(** ** Python built-ins used by the code *)

Definition pystr := list Z.

Inductive pyval : Type :=
| PInt (z : Z)
| PStr (s : pystr).

(** [l[i]] *)
Definition getitem {A} (l : list A) (i : nat) : res A :=
  match l !! i with
  | Some x => Ok x
  | None => Raise IndexError
  end.

(** [len(v)] of an element of a row: a string has a length, an int has not. *)
Definition py_len (v : pyval) : res Z :=
  match v with
  | PStr s => Ok (Z.of_nat (length s))
  | PInt _ => Raise TypeError
  end.

(** [msg.pop(0)] *)
Definition pop0 (msg : list Z) : res (Z * list Z) :=
  match msg with
  | [] => Raise IndexError
  | x :: rest => Ok (x, rest)
  end.

(** [msg[0:n]] and [msg[n:]]; a negative bound counts from the end. *)
Definition slice_to (msg : list Z) (n : Z) : list Z :=
  if 0 <=? n then take (Z.to_nat n) msg
  else take (Z.to_nat (Z.of_nat (length msg) + n)) msg.

Definition slice_from (msg : list Z) (n : Z) : list Z :=
  if 0 <=? n then drop (Z.to_nat n) msg
  else drop (Z.to_nat (Z.of_nat (length msg) + n)) msg.

(** [chr(c)] *)
Definition chr (c : Z) : res Z :=
  if (0 <=? c) && (c <? 1114112) then Ok c else Raise ValueError.

(** [''.join(chr(c) for c in l)] *)
Fixpoint join_chr (l : list Z) : res pystr :=
  match l with
  | [] => Ok []
  | c :: rest =>
      (let? x := chr c in
       let? xs := join_chr rest in
       Ok (x :: xs))%res
  end.

(** The UTF-8 bytes of one code point; a surrogate cannot be encoded. *)
Definition utf8_char (c : Z) : res (list Z) :=
  if c <? 128 then Ok [c]
  else if c <? 2048 then
    Ok [Z.lor 192 (Z.shiftr c 6); Z.lor 128 (Z.land c 63)]
  else if c <? 65536 then
    if (55296 <=? c) && (c <=? 57343) then Raise UnicodeEncodeError
    else Ok [Z.lor 224 (Z.shiftr c 12);
             Z.lor 128 (Z.land (Z.shiftr c 6) 63);
             Z.lor 128 (Z.land c 63)]
  else
    Ok [Z.lor 240 (Z.shiftr c 18);
        Z.lor 128 (Z.land (Z.shiftr c 12) 63);
        Z.lor 128 (Z.land (Z.shiftr c 6) 63);
        Z.lor 128 (Z.land c 63)].

(** [bytearray(s, 'utf-8')] of a string; of an int it is a [TypeError]. *)
Fixpoint utf8 (s : pystr) : res (list Z) :=
  match s with
  | [] => Ok []
  | c :: rest =>
      (let? b := utf8_char c in
       let? bs := utf8 rest in
       Ok (b ++ bs))%res
  end.

Definition bytearray_utf8 (v : pyval) : res (list Z) :=
  match v with
  | PStr s => utf8 s
  | PInt _ => Raise TypeError
  end.

(** [msg[-1] += v] *)
Fixpoint add_last (msg : list Z) (v : Z) : res (list Z) :=
  match msg with
  | [] => Raise IndexError
  | [x] => Ok [x + v]
  | x :: rest => (let? r := add_last rest v in Ok (x :: r))%res
  end.

(** [l.remove(x)]: the first occurrence goes, [ValueError] when there is
    none. Callbacks are function objects, compared by identity. *)
Definition callback := nat.

Fixpoint list_remove (x : callback) (l : list callback) : res (list callback) :=
  match l with
  | [] => Raise ValueError
  | y :: rest =>
      if Nat.eqb y x then Ok rest
      else (let? r := list_remove x rest in Ok (y :: r))%res
  end.

(** ** The format specifier table (class attribute, line 15) *)

Local Open Scope string_scope.

Definition format_specifiers : list (Z * string) :=
  [(0, "NONE"); (1, "STRING"); (2, "U8"); (3, "S8"); (4, "U16");
   (5, "S16"); (6, "U32"); (7, "S32"); (8, "FLOAT")].

(** [self.format_specifiers[k]] *)
Fixpoint table_get (t : list (Z * string)) (k : Z) : res string :=
  match t with
  | [] => Raise KeyError
  | (k', v) :: rest => if Z.eqb k' k then Ok v else table_get rest k
  end.

(** The table reversed by the loop at the head of [publish] (lines 81-84). *)
Definition reversed_specifiers : list (string * Z) :=
  map (fun kv => (snd kv, fst kv)) format_specifiers.

Fixpoint name_get (t : list (string * Z)) (e : string) : res Z :=
  match t with
  | [] => Raise KeyError
  | (n, k) :: rest => if String.eqb n e then Ok k else name_get rest e
  end.

(** The closed enumeration the table stands for. *)
Inductive FormatSpecifier : Type :=
| NONE | STRING | U8 | S8 | U16 | S16 | U32 | S32 | FLOAT.

Definition name (f : FormatSpecifier) : string :=
  match f with
  | NONE => "NONE" | STRING => "STRING" | U8 => "U8" | S8 => "S8"
  | U16 => "U16" | S16 => "S16" | U32 => "U32" | S32 => "S32"
  | FLOAT => "FLOAT"
  end.

Definition code (f : FormatSpecifier) : Z :=
  match f with
  | NONE => 0 | STRING => 1 | U8 => 2 | S8 => 3
  | U16 => 4 | S16 => 5 | U32 => 6 | S32 => 7
  | FLOAT => 8
  end.

Local Close Scope string_scope.

(** ** The object: class attributes, instance attributes, transport *)

(** What the topic store holds for a topic: the string of a STRING frame,
    or the rows of a numeric frame. *)
Inductive value : Type :=
| VStr (s : pystr)
| VRows (rows : list (list Z)).

(** An insertion-ordered dictionary from topics to values. *)
Definition store := list (pystr * value).

Fixpoint dict_get (k : pystr) (d : store) : option value :=
  match d with
  | [] => None
  | (k', v) :: rest => if bool_decide (k' = k) then Some v else dict_get k rest
  end.

(** [d[k] = v]: an existing key keeps its place, a new one goes last. *)
Fixpoint dict_set (k : pystr) (v : value) (d : store) : store :=
  match d with
  | [] => [(k, v)]
  | (k', v') :: rest =>
      if bool_decide (k' = k) then (k, v) :: rest
      else (k', v') :: dict_set k v rest
  end.

(** [d.pop(k)] *)
Fixpoint dict_pop (k : pystr) (d : store) : option store :=
  match d with
  | [] => None
  | (k', v') :: rest =>
      if bool_decide (k' = k) then Some rest
      else match dict_pop k rest with
           | Some rest' => Some ((k', v') :: rest')
           | None => None
           end
  end.

(** Modelled from the spec: the transport object [Frame]
    (serialdispatch/frame.py is not among the sources). It delivers complete
    frames in FIFO order: [push_tx_message] queues a frame for sending,
    [rx_is_available] tells whether a received frame waits,
    [pull_rx_message] removes and returns the oldest one. *)
Record Frame : Type := mkFrame {
  rx_queue : list (list Z);
  tx_queue : list (list Z)
}.

Definition rx_is_available (f : Frame) : bool :=
  match rx_queue f with
  | [] => false
  | _ :: _ => true
  end.

Definition pull_rx_message (f : Frame) : res (list Z * Frame) :=
  match rx_queue f with
  | [] => Raise IndexError
  | m :: rest => Ok (m, mkFrame rest (tx_queue f))
  end.

Definition push_tx_message (m : list Z) (f : Frame) : Frame :=
  mkFrame (rx_queue f) (tx_queue f ++ [m]).

(** What the program does that is visible from outside: a line sent to
    [logger.error], or a call of a subscriber. A callback takes no argument;
    what it can read through [get_data] while it runs is the topic store at
    that moment, which the event records. Callbacks are taken not to raise
    and not to call back into the object's mutating methods. *)
Inductive event : Type :=
| LogError (line : string)
| Called (cb : callback) (visible : store).

(** The state a method of one instance works on. [topical_data] and
    [subscribers] are the class attributes of lines 17-18 (no method ever
    assigns them on [self], so [self.topical_data] and [self.subscribers]
    always resolve to the class); [frame] and [run_thread] are set on the
    instance by [__init__]. The [timeout] attribute only decides whether the
    polling loop sleeps and is left out, as is the thread itself. *)
Record state : Type := mkState {
  topical_data : store;
  subscribers : gmap pystr (list callback);
  frame : Frame;
  run_thread : bool;
  events : list event
}.

Definition set_topical_data (d : store) (s : state) : state :=
  mkState d (subscribers s) (frame s) (run_thread s) (events s).

Definition set_subscribers (r : gmap pystr (list callback)) (s : state) : state :=
  mkState (topical_data s) r (frame s) (run_thread s) (events s).

Definition set_frame (f : Frame) (s : state) : state :=
  mkState (topical_data s) (subscribers s) f (run_thread s) (events s).

Definition set_run_thread (b : bool) (s : state) : state :=
  mkState (topical_data s) (subscribers s) (frame s) b (events s).

Definition emit (e : event) (s : state) : state :=
  mkState (topical_data s) (subscribers s) (frame s) (run_thread s)
          (events s ++ [e]).

(** ** The state and exception monad *)

Definition M (A : Type) : Type := state -> res A * state.

Definition ret {A} (a : A) : M A := fun s => (Ok a, s).

Definition raise {A} (e : exn) : M A := fun s => (Raise e, s).

Definition bind {A B} (m : M A) (k : A -> M B) : M B :=
  fun s =>
    match m s with
    | (Ok a, s') => k a s'
    | (Raise e, s') => (Raise e, s')
    end.

Definition lift {A} (r : res A) : M A := fun s => (r, s).

Definition modify (f : state -> state) : M unit := fun s => (Ok tt, f s).

Declare Scope m_scope.
Delimit Scope m_scope with M.
Notation "'do' x <- m ; k" := (bind m (fun x => k))
  (at level 10, x name, m at level 100, k at level 200) : m_scope.
Notation "'do' ' p <- m ; k" :=
  (bind m (fun x => match x with p => k end))
  (at level 10, p pattern, m at level 100, k at level 200) : m_scope.
Notation "m ;; k" := (bind m (fun _ => k))
  (at level 100, k at level 200, right associativity) : m_scope.

Definition logger_error (line : string) : M unit := modify (emit (LogError line)).

(** ** The subscriber registry and the value accessor (lines 34-68) *)

Definition subscribe (topic : pystr) (cb : callback) : M unit :=
  modify (fun s =>
    match subscribers s !! topic with
    | None => set_subscribers (<[topic := [cb]]> (subscribers s)) s
    | Some l => set_subscribers (<[topic := l ++ [cb]]> (subscribers s)) s
    end).

(** [if self.subscribers[topic]: self.subscribers[topic].remove(callback)]
    then [if len(self.subscribers[topic]) == 0: self.subscribers.pop(topic)].
    The first subscript raises [KeyError] for a topic without a list. *)
Definition unsubscribe (topic : pystr) (cb : callback) : M unit :=
  fun s =>
    match subscribers s !! topic with
    | None => (Raise KeyError, s)
    | Some l =>
        match (match l with [] => Ok l | _ :: _ => list_remove cb l end) with
        | Raise e => (Raise e, s)
        | Ok l' =>
            if Z.of_nat (length l') =? 0
            then (Ok tt, set_subscribers (delete topic (subscribers s)) s)
            else (Ok tt, set_subscribers (<[topic := l']> (subscribers s)) s)
        end
    end.

Definition get_data (topic : pystr) : M value :=
  fun s =>
    match dict_get topic (topical_data s) with
    | Some v => (Ok v, s)
    | None => (Raise KeyError, s)
    end.

Definition close : M unit := modify (set_run_thread false).

(** ** The encoder: [publish] (lines 70-143) *)

(** Lines 86-89: the length written into the header. *)
Definition publish_length (data : list (list pyval))
    (format_specifier : list string) : res Z :=
  if bool_decide (format_specifier = ["STRING"%string]) then
    (let? row0 := getitem data 0 in
     let? v := getitem row0 0 in
     py_len v)%res
  else
    (let? row0 := getitem data 0 in
     Ok (Z.of_nat (length row0)))%res.

(** Lines 104-109: one nibble per specifier, two to a byte. *)
Fixpoint pack_specifiers (i : Z) (format_specifier : list string)
    (msg : list Z) : res (list Z) :=
  match format_specifier with
  | [] => Ok msg
  | e :: rest =>
      (let? fs := name_get reversed_specifiers e in
       let? msg' :=
         (if Z.land i 1 =? 0 then Ok (msg ++ [Z.land fs 15])
          else add_last msg (Z.shiftl (Z.land fs 15) 4)) in
       pack_specifiers (i + 1) rest msg')%res
  end.

(** [[x if x > 0 else x + offset for x in row]] *)
Fixpoint unsigned_data (offset : Z) (row : list pyval) : res (list Z) :=
  match row with
  | [] => Ok []
  | PInt x :: rest =>
      (let? r := unsigned_data offset rest in
       Ok ((if x >? 0 then x else x + offset) :: r))%res
  | PStr _ :: _ => Raise TypeError
  end.

Definition bytes16 (x : Z) : list Z :=
  [Z.land x 255; Z.shiftr (Z.land x 65280) 8].

Definition bytes32 (x : Z) : list Z :=
  [Z.land x 255; Z.shiftr (Z.land x 65280) 8;
   Z.shiftr (Z.land x 16711680) 16; Z.shiftr (Z.land x 4278190080) 24].

(** One turn of the loop of lines 111-138: the bytes of row [i]. *)
Definition encode_row (i : nat) (e : string) (data : list (list pyval))
    (msg : list Z) : M (list Z) :=
  if (String.eqb e "NONE" || String.eqb e "STRING")%bool then
    lift (let? row0 := getitem data 0 in
          let? v := getitem row0 0 in
          let? str_array := bytearray_utf8 v in
          Ok (msg ++ str_array))%res
  else if (String.eqb e "U8" || String.eqb e "S8")%bool then
    lift (let? row := getitem data i in
          let? unsigned_data8 := unsigned_data 256 row in
          Ok (msg ++ unsigned_data8))%res
  else if (String.eqb e "U16" || String.eqb e "S16")%bool then
    lift (let? row := getitem data i in
          let? unsigned_data16 := unsigned_data 65536 row in
          Ok (msg ++ flat_map bytes16 unsigned_data16))%res
  else if (String.eqb e "U32" || String.eqb e "S32")%bool then
    lift (let? row := getitem data i in
          let? unsigned_data32 := unsigned_data 4294967296 row in
          Ok (msg ++ flat_map bytes32 unsigned_data32))%res
  else
    (logger_error ("width not supported: " ++ e) ;; ret msg)%M.

Fixpoint encode_rows (i : nat) (format_specifier : list string)
    (data : list (list pyval)) (msg : list Z) : M (list Z) :=
  match format_specifier with
  | [] => ret msg
  | e :: rest =>
      (do msg' <- encode_row i e data msg;
       encode_rows (S i) rest data msg')%M
  end.

Definition publish (topic : pystr) (data : list (list pyval))
    (format_specifier : list string) : M (list Z) :=
  (do len <- lift (publish_length data format_specifier);
   let dim := Z.of_nat (length data) in
   do topic_bytes <- lift (utf8 topic);
   let msg := topic_bytes ++ [0] ++ [dim] ++ [Z.land len 255]
                ++ [Z.shiftr (Z.land len 65280) 8] in
   do msg <- lift (pack_specifiers 0 format_specifier msg);
   do msg <- encode_rows 0 format_specifier data msg;
   modify (fun s => set_frame (push_tx_message msg (frame s)) s) ;;
   ret msg)%M.

(** [publish(topic, data)] with the default [format_specifier=['STRING']]. *)
Definition publish_default (topic : pystr) (data : list (list pyval)) : M (list Z) :=
  publish topic data ["STRING"%string].

(** ** The decoder and dispatcher: [run] (lines 145-302) *)

(** Lines 152-156: the index of the first zero, and 0 when there is none. *)
Fixpoint find_zero (i : nat) (msg : list Z) : nat :=
  match msg with
  | [] => 0%nat
  | element :: rest => if element =? 0 then i else find_zero (S i) rest
  end.

(** Lines 165-179: the specifier names, two per byte, until [i == dim]. *)
Fixpoint read_specifiers (i dim : Z) (acc : list string) (msg : list Z)
    : res (list string * list Z) :=
  match msg with
  | [] => Raise IndexError
  | fs0 :: msg' =>
      (let? n0 := table_get format_specifiers (Z.land fs0 15) in
       let acc := acc ++ [n0] in
       if i + 1 =? dim then Ok (acc, msg')
       else
         let? n1 := table_get format_specifiers (Z.shiftr (Z.land fs0 240) 4) in
         let acc := acc ++ [n1] in
         if i + 2 =? dim then Ok (acc, msg')
         else read_specifiers (i + 2) dim acc msg')%res
  end.

(** Lines 151-179: topic, dim, length, specifiers and the bytes left. *)
Definition decode_header (msg : list Z)
    : res (pystr * Z * Z * list string * list Z) :=
  let zero_index := find_zero 0 msg in
  (let? topic := join_chr (take zero_index msg) in
   let msg := drop (S zero_index) msg in
   let? '(dim, msg) := pop0 msg in
   let? '(len, msg) := pop0 msg in
   let? '(hi, msg) := pop0 msg in
   let len := len + hi * 256 in
   let? '(format_specifiers, msg) := read_specifiers 0 dim [] msg in
   Ok (topic, dim, len, format_specifiers, msg))%res.

(** [if not self.topical_data: self.topical_data[topic] = []] *)
Definition ensure_rows (topic : pystr) : M unit :=
  modify (fun s =>
    match topical_data s with
    | [] => set_topical_data (dict_set topic (VRows []) (topical_data s)) s
    | _ :: _ => s
    end).

(** [self.topical_data[topic].append(row)] *)
Definition append_row (topic : pystr) (row : list Z) : M unit :=
  fun s =>
    match dict_get topic (topical_data s) with
    | None => (Raise KeyError, s)
    | Some (VStr _) => (Raise AttributeError, s)
    | Some (VRows rows) =>
        (Ok tt,
         set_topical_data
           (dict_set topic (VRows (rows ++ [row])) (topical_data s)) s)
    end.

(** The [while row8:] loops of lines 214-217 and 247-252. *)
Fixpoint words16 (row8 : list Z) : res (list Z) :=
  match row8 with
  | [] => Ok []
  | b0 :: rest =>
      match rest with
      | [] => Raise IndexError
      | b1 :: rest' =>
          (let? r := words16 rest' in Ok (b0 + b1 * 256 :: r))%res
      end
  end.

Fixpoint words32 (row8 : list Z) : res (list Z) :=
  match row8 with
  | [] => Ok []
  | b0 :: rest =>
      match rest with
      | b1 :: b2 :: b3 :: rest' =>
          (let? r := words32 rest' in
           Ok (b0 + b1 * 256 + b2 * 65536 + b3 * 16777216 :: r))%res
      | _ => Raise IndexError
      end
  end.

(** One turn of the loop of lines 181-281; the result is the local [msg]. *)
Definition decode_row (topic : pystr) (len : Z) (element : string)
    (msg : list Z) : M (list Z) :=
  if String.eqb element "STRING" then
    (do string_message <- lift (join_chr msg);
     modify (fun s =>
       set_topical_data
         (dict_set topic (VStr string_message) (topical_data s)) s) ;;
     ret msg)%M
  else if String.eqb element "U8" then
    (ensure_rows topic ;;
     append_row topic (slice_to msg len) ;;
     ret (slice_from msg len))%M
  else if String.eqb element "S8" then
    (ensure_rows topic ;;
     let row := slice_to msg len in
     let row := map (fun e => if e >? 127 then e - 256 else e) row in
     append_row topic row ;;
     ret (slice_from msg len))%M
  else if String.eqb element "U16" then
    (ensure_rows topic ;;
     do row16 <- lift (words16 (slice_to msg (len * 2)));
     append_row topic row16 ;;
     ret (slice_from msg (len * 2)))%M
  else if String.eqb element "S16" then
    (ensure_rows topic ;;
     do row16 <- lift (words16 (slice_to msg (len * 2)));
     let row16 := map (fun e => if e >? 32767 then e - 65536 else e) row16 in
     append_row topic row16 ;;
     ret (slice_from msg (len * 2)))%M
  else if String.eqb element "U32" then
    (ensure_rows topic ;;
     do row32 <- lift (words32 (slice_to msg (len * 4)));
     append_row topic row32 ;;
     ret (slice_from msg (len * 4)))%M
  else if String.eqb element "S32" then
    (ensure_rows topic ;;
     do row32 <- lift (words32 (slice_to msg (len * 4)));
     let row32 :=
       map (fun e => if e >? 2147483648 then e - 4294967296 else e) row32 in
     append_row topic row32 ;;
     ret (slice_from msg (len * 4)))%M
  else if String.eqb element "FLOAT" then
    (logger_error "FLOAT not currently supported!" ;; ret msg)%M
  else
    (logger_error ("unrecognized message type: " ++ element) ;; ret msg)%M.

Fixpoint decode_rows (topic : pystr) (len : Z)
    (format_specifiers : list string) (msg : list Z) : M unit :=
  match format_specifiers with
  | [] => ret tt
  | element :: rest =>
      (do msg' <- decode_row topic len element msg;
       decode_rows topic len rest msg')%M
  end.

(** [element()] for a subscriber. *)
Definition call (cb : callback) : M unit :=
  fun s => (Ok tt, emit (Called cb (topical_data s)) s).

Fixpoint call_all (cbs : list callback) : M unit :=
  match cbs with
  | [] => ret tt
  | element :: rest => (call element ;; call_all rest)%M
  end.

(** [self.topical_data.pop(key)] *)
Definition pop_topic (key : pystr) : M unit :=
  fun s =>
    match dict_pop key (topical_data s) with
    | Some d => (Ok tt, set_topical_data d s)
    | None => (Raise KeyError, s)
    end.

(** Lines 283-299, over the keys of the copy taken at line 284. *)
Fixpoint dispatch_keys (keys : list pystr) : M unit :=
  match keys with
  | [] => ret tt
  | key :: rest =>
      (do subs <- (fun s => (Ok (subscribers s !! key), s));
       match subs with
       | None => pop_topic key
       | Some cbs => (call_all cbs ;; pop_topic key)
       end ;;
       dispatch_keys rest)%M
  end.

Definition dispatch : M unit :=
  fun s => dispatch_keys (map fst (topical_data s)) s.

(** What [run] does with one message pulled from the transport. *)
Definition decode_frame (msg : list Z) : M (pystr * Z * Z * list string) :=
  (do '(topic, dim, len, format_specifiers, msg) <- lift (decode_header msg);
   decode_rows topic len format_specifiers msg ;;
   ret (topic, dim, len, format_specifiers))%M.

Definition process_msg (msg : list Z) : M unit :=
  (decode_frame msg ;; dispatch)%M.

(** [msg = self.frame.pull_rx_message()] *)
Definition pull : M (list Z) :=
  fun s =>
    match pull_rx_message (frame s) with
    | Ok (msg, f) => (Ok msg, set_frame f s)
    | Raise e => (Raise e, s)
    end.

(** The inner loop [while self.frame.rx_is_available] (lines 148-299),
    for at most [fuel] turns. *)
Fixpoint drain_loop (fuel : nat) : M unit :=
  match fuel with
  | O => ret tt
  | S n =>
      fun s =>
        if rx_is_available (frame s)
        then (do msg <- pull; process_msg msg ;; drain_loop n)%M s
        else (Ok tt, s)
  end.

(** Each turn pulls one frame, and nothing else touches the receive queue
    while the loop runs (no frame arrives in between): as many turns as
    frames wait are enough. *)
Definition drain : M unit :=
  fun s => drain_loop (length (rx_queue (frame s))) s.

(** The same loop by recursion on the frames that wait ([drain_eq] below
    shows that [drain] is this). *)
Fixpoint drain_from (queue : list (list Z)) : M unit :=
  match queue with
  | [] => ret tt
  | msg :: rest =>
      (modify (fun s => set_frame (mkFrame rest (tx_queue (frame s))) s) ;;
       process_msg msg ;;
       drain_from rest)%M
  end.

(** One turn of the outer loop [while self.run_thread]. An exception ends
    the thread: it is the result of the turn. *)
Definition run_pass : M unit :=
  fun s => if run_thread s then drain s else (Ok tt, s).

Fixpoint run (passes : nat) : M unit :=
  match passes with
  | O => ret tt
  | S n => (run_pass ;; run n)%M
  end.

(** ** Several instances of the class

    The two dictionaries belong to the class; every instance has its own
    transport and its own [run_thread] flag. The log is the module's. *)
Record instance : Type := mkInstance {
  i_frame : Frame;
  i_run_thread : bool
}.

Record world : Type := mkWorld {
  w_topical_data : store;
  w_subscribers : gmap pystr (list callback);
  w_events : list event;
  w_instances : list instance
}.

Definition load (w : world) (o : instance) : state :=
  mkState (w_topical_data w) (w_subscribers w) (i_frame o) (i_run_thread o)
          (w_events w).

Definition unload (i : nat) (s : state) (w : world) : world :=
  mkWorld (topical_data s) (subscribers s) (events s)
          (<[i := mkInstance (frame s) (run_thread s)]> (w_instances w)).

(** A method called on instance [i] of the world. *)
Definition via {A} (i : nat) (m : M A) (w : world) : option (res A * world) :=
  match w_instances w !! i with
  | None => None
  | Some o => let '(r, s) := m (load w o) in Some (r, unload i s w)
  end.

(** [obj.subscribers] and [obj.topical_data] read through instance [i]. *)
Definition subscribers_of (i : nat) (w : world)
    : option (gmap pystr (list callback)) :=
  match w_instances w !! i with
  | None => None
  | Some o => Some (subscribers (load w o))
  end.

Definition topical_data_of (i : nat) (w : world) : option store :=
  match w_instances w !! i with
  | None => None
  | Some o => Some (topical_data (load w o))
  end.

(** ** The vocabulary of the statements *)

(** Text whose UTF-8 bytes are its code points; a topic is moreover free of
    the terminator. *)
Definition ascii_text (s : pystr) : Prop := Forall (fun c => 0 <= c < 128) s.

Definition topic_text (s : pystr) : Prop := Forall (fun c => 1 <= c < 128) s.

Definition numeric (f : FormatSpecifier) : bool :=
  match f with
  | U8 | S8 | U16 | S16 | U32 | S32 => true
  | NONE | STRING | FLOAT => false
  end.

(** The values a specifier's width can hold. *)
Definition representable (f : FormatSpecifier) (v : Z) : Prop :=
  match f with
  | U8 => 0 <= v <= 255
  | S8 => -128 <= v <= 127
  | U16 => 0 <= v <= 65535
  | S16 => -32768 <= v <= 32767
  | U32 => 0 <= v <= 4294967295
  | S32 => -2147483648 <= v <= 2147483647
  | NONE | STRING | FLOAT => False
  end.

(** The two places where the code slips: a zero in a one-byte row (the test
    [x > 0] of line 118 sends it to 256) and the least S32 value (line 272
    compares with 2147483648). *)
Definition off_the_slips (f : FormatSpecifier) (v : Z) : Prop :=
  match f with
  | U8 | S8 => v <> 0
  | S32 => v <> -2147483648
  | _ => True
  end.

(** The element of the comprehensions of lines 118, 122 and 129. *)
Definition to_unsigned (offset x : Z) : Z := if x >? 0 then x else x + offset.

(** The payload [publish] emits for the one-element row [[v]]. *)
Definition payload (f : FormatSpecifier) (v : Z) : list Z :=
  match f with
  | U8 | S8 => [to_unsigned 256 v]
  | U16 | S16 => bytes16 (to_unsigned 65536 v)
  | U32 | S32 => bytes32 (to_unsigned 4294967296 v)
  | NONE | STRING | FLOAT => []
  end.

(** What a one-element row may hold for the round trip to be exact. *)
Definition in_range (f : FormatSpecifier) (x : pyval) : Prop :=
  match x with
  | PInt v => representable f v /\ off_the_slips f v
  | PStr str =>
      f = STRING /\ ascii_text str /\ Z.of_nat (length str) < 65536
  end.

(** What the store holds after the frame of [[x]] is decoded, and the
    length its header carries. *)
Definition stored_value (x : pyval) : value :=
  match x with
  | PInt v => VRows [[v]]
  | PStr str => VStr str
  end.

Definition length_field (x : pyval) : Z :=
  match x with
  | PInt _ => 1
  | PStr str => Z.of_nat (length str)
  end.

(** The round trip as the specification words it: the frame published for
    the one-element row [[x]] decodes to the topic, dim 1, row length 1, the
    specifier list, and stores the value. *)
Definition claimed_roundtrip (f : FormatSpecifier) (x : pyval)
    (topic : pystr) (s : state) : Prop :=
  exists msg s' s'',
    publish topic [[x]] [name f] s = (Ok msg, s') /\
    decode_frame msg s = (Ok (topic, 1, 1, [name f]), s'') /\
    dict_get topic (topical_data s'') = Some (stored_value x).

(** Follows the spec's words: byte [k] of the specifier block holds
    specifier [2k] in its low nibble and specifier [2k+1], when there is
    one, in its high nibble. To be compared with [pack_specifiers]. *)
Fixpoint packed_block_spec (codes : list Z) : list Z :=
  match codes with
  | [] => []
  | [a] => [Z.land a 15]
  | a :: b :: rest =>
      (Z.land a 15 + Z.shiftl (Z.land b 15) 4) :: packed_block_spec rest
  end.

(** The codes of a list of specifier names, [KeyError] at an unknown name
    (line 105, taken out of the loop). *)
Fixpoint codes_of (format_specifier : list string) : res (list Z) :=
  match format_specifier with
  | [] => Ok []
  | e :: rest =>
      (let? fs := name_get reversed_specifiers e in
       let? cs := codes_of rest in
       Ok (fs :: cs))%res
  end.

(** The calls of the subscribers [cbs], each seeing the store [visible]. *)
Definition calls (cbs : list callback) (visible : store) : list event :=
  map (fun cb => Called cb visible) cbs.

(** The event is a call during which [get_data topic] returns [v]. *)
Definition readable_during (topic : pystr) (v : value) (e : event) : Prop :=
  match e with
  | Called _ visible => dict_get topic visible = Some v
  | LogError _ => False
  end.

(** A computation that touches neither the transport, nor the run flag, nor
    the registry. *)
Definition keeps_instance {A} (m : M A) : Prop :=
  forall s, frame (snd (m s)) = frame s /\
            run_thread (snd (m s)) = run_thread s /\
            subscribers (snd (m s)) = subscribers s.

(** The state once the head of the receive queue is pulled. *)
Definition pulled (s : state) (rest : list (list Z)) : state :=
  set_frame (mkFrame rest (tx_queue (frame s))) s.

(** The store holds nothing, or one value, for [topic]. *)
Definition at_most (topic : pystr) (d : store) : Prop :=
  d = [] \/ exists v, d = [(topic, v)].

(** ** Objects of the examples *)

Definition idle : state := mkState [] ∅ (mkFrame [] []) true [].

(** The topic "t", and a subscriber (callback 7) registered for it. *)
Definition topic_t : pystr := [116].

Definition listening : state :=
  mkState [] {[ topic_t := [7%nat] ]} (mkFrame [] []) true [].

(** The string "hi" decoded for topic "t", two subscribers registered. *)
Definition holding : state :=
  mkState [(topic_t, VStr [104; 105])] {[ topic_t := [7%nat; 8%nat] ]}
          (mkFrame [] []) true [].

(** A truncated frame (topic "t", then only the dim byte) ahead of a
    well-formed STRING frame "hi" for topic "t". *)
Definition truncated_frame : list Z := [116; 0; 1].

Definition good_frame : list Z := [116; 0; 1; 2; 0; 1; 104; 105].

Definition two_queued : state :=
  mkState [] {[ topic_t := [7%nat] ]}
          (mkFrame [truncated_frame; good_frame] []) true [].

(** A frame without any zero byte, and a subscriber of the empty topic. *)
Definition unterminated_frame : list Z := [65; 1; 1; 1; 2; 7].

Definition listening_empty_topic : state :=
  mkState [] {[ [] := [9%nat] ]} (mkFrame [] []) true [].

Definition two_instances : world :=
  mkWorld [] ∅ [] [mkInstance (mkFrame [] []) true;
                   mkInstance (mkFrame [] []) true].

(** ** Further vocabulary: rows, frames and sequences of calls *)

(** The bytes [publish] emits for a row of ints under a numeric specifier
    (lines 117-135). *)
Definition row_bytes (f : FormatSpecifier) (row : list Z) : list Z :=
  match f with
  | U8 | S8 => map (to_unsigned 256) row
  | U16 | S16 => flat_map bytes16 (map (to_unsigned 65536) row)
  | U32 | S32 => flat_map bytes32 (map (to_unsigned 4294967296) row)
  | NONE | STRING | FLOAT => []
  end.

(** The bytes of one element. *)
Definition width (f : FormatSpecifier) : Z :=
  match f with
  | U8 | S8 => 1
  | U16 | S16 => 2
  | U32 | S32 => 4
  | NONE | STRING | FLOAT => 0
  end.

(** A row of [n] elements the specifier can hold, the slips apart. *)
Definition row_in_range (n : nat) (f : FormatSpecifier) (row : list Z) : Prop :=
  numeric f = true /\ length row = n /\
  Forall (fun v => representable f v /\ off_the_slips f v) row.

(** A row of [n] elements under a numeric specifier, whatever the values. *)
Definition row_shape (n : nat) (f : FormatSpecifier) (row : list Z) : Prop :=
  numeric f = true /\ length row = n.

(** The store holds the rows [acc] for [topic]; before the first row it may
    still be empty. *)
Definition rows_so_far (topic : pystr) (acc : list (list Z)) (d : store) : Prop :=
  (acc = [] /\ d = []) \/ d = [(topic, VRows acc)].

(** The frame of numeric rows, written out. *)
Definition numeric_frame (topic : pystr) (fs : list FormatSpecifier)
    (rows : list (list Z)) (n : nat) : list Z :=
  topic
    ++ [0; Z.of_nat (length rows); Z.land (Z.of_nat n) 255;
        Z.shiftr (Z.land (Z.of_nat n) 65280) 8]
    ++ packed_block_spec (map code fs)
    ++ concat (zip_with row_bytes fs rows).

(** A computation whose only effect is to write lines to the log. *)
Definition logs_only {A} (m : M A) : Prop :=
  forall s, exists lines,
    snd (m s) =
      mkState (topical_data s) (subscribers s) (frame s) (run_thread s)
              (events s ++ map LogError lines).

(** A byte. *)
Definition byte (b : Z) : Prop := 0 <= b < 256.

(** A name of the specifier table. *)
Definition known_name (e : string) : Prop := exists f, e = name f.

(** What the decoder can produce from bytes under each specifier; the S32
    bounds are those of the comparison of line 272. *)
Definition decoded_range (f : FormatSpecifier) (v : Z) : Prop :=
  match f with
  | U8 => 0 <= v <= 255
  | S8 => -128 <= v <= 127
  | U16 => 0 <= v <= 65535
  | S16 => -32768 <= v <= 32767
  | U32 => 0 <= v <= 4294967295
  | S32 => -2147483647 <= v <= 2147483648
  | NONE | STRING | FLOAT => False
  end.

(** No topic is registered with an empty list of callbacks. *)
Definition no_empty_list (reg : gmap pystr (list callback)) : Prop :=
  forall topic l, reg !! topic = Some l -> l <> [].

(** A call of [subscribe] or of [unsubscribe]. *)
Inductive registry_call : Type :=
| Subscribe (topic : pystr) (cb : callback)
| Unsubscribe (topic : pystr) (cb : callback).

(** The state after the calls, whether they raise or not. *)
Fixpoint after_calls (cs : list registry_call) (s : state) : state :=
  match cs with
  | [] => s
  | Subscribe topic cb :: rest => after_calls rest (snd (subscribe topic cb s))
  | Unsubscribe topic cb :: rest => after_calls rest (snd (unsubscribe topic cb s))
  end.

(** The calls dispatch makes for the store [d]: topic by topic, in the order
    of the store, each subscriber seeing what is not yet dispatched. *)
Fixpoint dispatch_trace (subs : gmap pystr (list callback)) (d : store)
    : list event :=
  match d with
  | [] => []
  | (key, v) :: rest =>
      calls (default [] (subs !! key)) d ++ dispatch_trace subs rest
  end.

(** The bytes one element of every row takes. *)
Fixpoint total_width (fs : list FormatSpecifier) : Z :=
  match fs with
  | [] => 0
  | f :: rest => width f + total_width rest
  end.

(** [subscribe(topic, cb)] for each callback of the list, in order. *)
Fixpoint subscribe_all (topic : pystr) (cbs : list callback) : M unit :=
  match cbs with
  | [] => ret tt
  | cb :: rest => (subscribe topic cb ;; subscribe_all topic rest)%M
  end.

(** ** Tactics *)

Ltac split_sign :=
  repeat match goal with
  | |- context [if ?x <? ?y then _ else _] => destruct (Z.ltb_spec x y)
  end.

Ltac split_rbind H :=
  repeat match type of H with
  | context [rbind ?r _] =>
      let E := fresh "E" in destruct r eqn:E; cbn [rbind] in H
  end.


(** * Arithmetic of the byte masks *)

(** The masks and shifts of lines 125-135 cut a number into its bytes. *)
Lemma land_255 (x : Z) : Z.land x 255 = x mod 256.
Proof. exact (Z.land_ones x 8 ltac:(lia)). Qed.

Lemma byte1_spec (x : Z) : Z.shiftr (Z.land x 65280) 8 = (x / 256) mod 256.
Proof.
  rewrite Z.shiftr_land. change (Z.shiftr 65280 8) with 255.
  rewrite land_255, Z.shiftr_div_pow2 by lia. reflexivity.
Qed.

Lemma byte2_spec (x : Z) : Z.shiftr (Z.land x 16711680) 16 = (x / 65536) mod 256.
Proof.
  rewrite Z.shiftr_land. change (Z.shiftr 16711680 16) with 255.
  rewrite land_255, Z.shiftr_div_pow2 by lia. reflexivity.
Qed.

Lemma byte3_spec (x : Z) : Z.shiftr (Z.land x 4278190080) 24 = (x / 16777216) mod 256.
Proof.
  rewrite Z.shiftr_land. change (Z.shiftr 4278190080 24) with 255.
  rewrite land_255, Z.shiftr_div_pow2 by lia. reflexivity.
Qed.

(** Lines 215-216 and 248-251 put the bytes together again. *)
Lemma word16_bytes (x : Z) :
  x mod 256 + (x / 256) mod 256 * 256 = x mod 65536.
Proof. Z.div_mod_to_equations. lia. Qed.

Lemma word32_bytes (x : Z) :
  x mod 256 + (x / 256) mod 256 * 256 + (x / 65536) mod 256 * 65536
    + (x / 16777216) mod 256 * 16777216 = x mod 4294967296.
Proof. Z.div_mod_to_equations. lia. Qed.

Lemma gtb_case (x y : Z) (A : Type) (a b : A) :
  (if x >? y then a else b) = (if y <? x then a else b).
Proof. rewrite Z.gtb_ltb. reflexivity. Qed.

Lemma even_next (i : Z) : Z.land i 1 = 0 -> Z.land (i + 1) 1 = 1.
Proof.
  change 1 with (Z.ones 1) at 1 3. rewrite !Z.land_ones by lia.
  change (2 ^ 1) with 2. intros. Z.div_mod_to_equations. lia.
Qed.

Lemma even_next_next (i : Z) : Z.land i 1 = 0 -> Z.land (i + 1 + 1) 1 = 0.
Proof.
  change 1 with (Z.ones 1) at 1 4. rewrite !Z.land_ones by lia.
  change (2 ^ 1) with 2. intros. Z.div_mod_to_equations. lia.
Qed.

(** * Text *)

Lemma topic_text_ascii (s : pystr) : topic_text s -> ascii_text s.
Proof.
  intros H. eapply Forall_impl; [exact H|].
  intros c Hc. simpl in Hc. lia.
Qed.

Lemma utf8_ascii (s : pystr) : ascii_text s -> utf8 s = Ok s.
Proof.
  induction 1 as [|c s Hc _ IH]; simpl; [reflexivity|].
  unfold utf8_char. destruct (Z.ltb_spec c 128); [|lia].
  simpl. rewrite IH. reflexivity.
Qed.

Lemma join_chr_ascii (s : pystr) : ascii_text s -> join_chr s = Ok s.
Proof.
  induction 1 as [|c s Hc _ IH]; simpl; [reflexivity|].
  unfold chr. destruct (Z.leb_spec 0 c); [|lia].
  destruct (Z.ltb_spec c 1114112); [|lia].
  simpl. rewrite IH. reflexivity.
Qed.

(** The search of lines 152-156 stops at the terminator of the topic. *)
Lemma find_zero_terminator (topic rest : list Z) (i : nat) :
  topic_text topic -> find_zero i (topic ++ 0 :: rest) = (i + length topic)%nat.
Proof.
  intros H. revert i. induction H as [|c s Hc _ IH]; intros i; simpl.
  - lia.
  - destruct (Z.eqb_spec c 0); [lia|]. rewrite IH. lia.
Qed.

(** Without a zero byte it ends with [zero_index] still 0. *)
Lemma find_zero_none (msg : list Z) (i : nat) :
  Forall (fun b => b <> 0) msg -> find_zero i msg = 0%nat.
Proof.
  intros H. revert i. induction H as [|c s Hc _ IH]; intros i; simpl.
  - reflexivity.
  - destruct (Z.eqb_spec c 0); [contradiction|]. apply IH.
Qed.

(** * The monad and the dictionaries *)

Lemma bind_lift_ok {A B} (r : res A) (a : A) (k : A -> M B) (s : state) :
  r = Ok a -> bind (lift r) k s = k a s.
Proof. intros ->. reflexivity. Qed.

Lemma bind_lift_raise {A B} (r : res A) (e : exn) (k : A -> M B) (s : state) :
  r = Raise e -> bind (lift r) k s = (Raise e, s).
Proof. intros ->. reflexivity. Qed.

Lemma bind_ok {A B} (m : M A) (a : A) (k : A -> M B) (s s' : state) :
  m s = (Ok a, s') -> bind m k s = k a s'.
Proof. intros H. unfold bind. rewrite H. reflexivity. Qed.

Lemma bind_raise {A B} (m : M A) (e : exn) (k : A -> M B) (s s' : state) :
  m s = (Raise e, s') -> bind m k s = (Raise e, s').
Proof. intros H. unfold bind. rewrite H. reflexivity. Qed.

Lemma dict_get_head (k : pystr) (v : value) (d : store) :
  dict_get k ((k, v) :: d) = Some v.
Proof. simpl. rewrite bool_decide_eq_true_2; reflexivity. Qed.

Lemma dict_set_head (k : pystr) (v v' : value) (d : store) :
  dict_set k v ((k, v') :: d) = (k, v) :: d.
Proof. simpl. rewrite bool_decide_eq_true_2; reflexivity. Qed.

Lemma dict_pop_head (k : pystr) (v : value) (d : store) :
  dict_pop k ((k, v) :: d) = Some d.
Proof. simpl. rewrite bool_decide_eq_true_2; reflexivity. Qed.

Lemma at_most_set (topic : pystr) (v : value) (d : store) :
  at_most topic d -> dict_set topic v d = [(topic, v)].
Proof.
  intros [-> | [v' ->]]; [reflexivity|]. apply dict_set_head.
Qed.

Lemma pair_induction {A} (P : list A -> Prop) :
  P [] -> (forall a, P [a]) -> (forall a b l, P l -> P (a :: b :: l)) ->
  forall l, P l.
Proof.
  intros H0 H1 H2.
  assert (H : forall l, P l /\ forall a, P (a :: l)).
  { induction l as [|x l [IH1 IH2]]; split; auto. }
  intros l. apply H.
Qed.

Lemma add_last_app (msg : list Z) (x v : Z) :
  add_last (msg ++ [x]) v = Ok (msg ++ [x + v]).
Proof.
  induction msg as [|y msg IH]; [reflexivity|].
  cbn [app add_last]. rewrite IH.
  destruct (msg ++ [x]) eqn:E; [destruct msg; discriminate|]. reflexivity.
Qed.

Lemma flat_map_ext_eq {A B} (f g : A -> list B) (l : list A) :
  (forall x, f x = g x) -> flat_map f l = flat_map g l.
Proof.
  intros H. induction l as [|x l IH]; [reflexivity|].
  cbn [flat_map]. rewrite H, IH. reflexivity.
Qed.

(** * The encoder *)

(** The loop of lines 104-109 builds the block the spec describes. *)
Lemma pack_specifiers_spec (format_specifier : list string) :
  forall (i : Z) (msg : list Z), Z.land i 1 = 0 ->
  pack_specifiers i format_specifier msg =
    (let? cs := codes_of format_specifier in
     Ok (msg ++ packed_block_spec cs))%res.
Proof.
  induction format_specifier as [|a|a b l IH] using pair_induction;
    intros i msg Hi.
  - simpl. rewrite app_nil_r. reflexivity.
  - cbn [pack_specifiers codes_of].
    destruct (name_get reversed_specifiers a) as [fa|x]; [|reflexivity].
    cbn [rbind]. rewrite Hi. reflexivity.
  - cbn [pack_specifiers codes_of].
    destruct (name_get reversed_specifiers a) as [fa|x]; [|reflexivity].
    cbn [rbind]. rewrite Hi. cbn [Z.eqb rbind].
    destruct (name_get reversed_specifiers b) as [fb|x] eqn:Hb.
    + cbn [rbind]. rewrite (even_next i Hi). cbn [Z.eqb Pos.eqb].
      rewrite add_last_app. cbn [rbind].
      rewrite (IH (i + 1 + 1) _ (even_next_next i Hi)).
      destruct (codes_of l) as [cs|x]; [|reflexivity].
      cbn [rbind packed_block_spec]. rewrite <- app_assoc. reflexivity.
    + reflexivity.
Qed.

Lemma codes_of_names (fmts : list FormatSpecifier) :
  codes_of (map name fmts) = Ok (map code fmts).
Proof.
  induction fmts as [|f l IH]; [reflexivity|].
  cbn [map codes_of]. rewrite IH. destruct f; reflexivity.
Qed.

Lemma pack_single (f : FormatSpecifier) (msg : list Z) :
  pack_specifiers 0 [name f] msg = Ok (msg ++ [code f]).
Proof. destruct f; reflexivity. Qed.

Lemma packed_block_length (codes : list Z) :
  length (packed_block_spec codes) = Nat.div2 (S (length codes)).
Proof.
  induction codes as [|a|a b l IH] using pair_induction; try reflexivity.
  cbn [packed_block_spec length]. rewrite IH. reflexivity.
Qed.

Lemma packed_block_nibbles (fmts : list FormatSpecifier) :
  forall (k : nat) (f : FormatSpecifier),
  fmts !! (2 * k)%nat = Some f ->
  exists b, packed_block_spec (map code fmts) !! k = Some b /\
            Z.land b 15 = code f /\
            Z.shiftr b 4 =
              match fmts !! (2 * k + 1)%nat with
              | Some g => code g
              | None => 0
              end.
Proof.
  induction fmts as [|a|a b l IH] using pair_induction; intros k f Hk.
  - discriminate.
  - destruct k as [|k].
    + injection Hk as <-. eexists. split; [reflexivity|].
      destruct a; split; reflexivity.
    + replace (2 * S k)%nat with (S (S (2 * k))) in Hk by lia. discriminate.
  - destruct k as [|k].
    + injection Hk as <-. eexists. split; [reflexivity|].
      destruct a, b; split; reflexivity.
    + replace (2 * S k)%nat with (S (S (2 * k))) in Hk by lia.
      replace (2 * S k + 1)%nat with (S (S (2 * k + 1))) by lia.
      cbn [map packed_block_spec]. apply (IH k f Hk).
Qed.

(** The loops of [publish] only ever extend the message. *)
Lemma encode_row_extends (i : nat) (e : string) (data : list (list pyval))
    (msg m : list Z) (s s' : state) :
  encode_row i e data msg s = (Ok m, s') -> exists p, m = msg ++ p.
Proof.
  unfold encode_row. intros H.
  repeat match type of H with
  | context [if ?b then _ else _] => destruct b
  end; unfold lift, bind, logger_error, modify, ret in H;
  split_rbind H; inversion H; subst; eauto.
  exists []. rewrite app_nil_r. reflexivity.
Qed.

Lemma encode_rows_extends (format_specifier : list string) :
  forall (i : nat) (data : list (list pyval)) (msg m : list Z) (s s' : state),
  encode_rows i format_specifier data msg s = (Ok m, s') ->
  exists p, m = msg ++ p.
Proof.
  induction format_specifier as [|e l IH]; intros i data msg m s s' H.
  - inversion H. exists []. rewrite app_nil_r. reflexivity.
  - cbn [encode_rows] in H. unfold bind in H.
    destruct (encode_row i e data msg s) as [[m1|x] s1] eqn:E1; [|discriminate].
    destruct (encode_row_extends _ _ _ _ _ _ _ E1) as [p1 ->].
    destruct (IH _ _ _ _ _ _ H) as [p2 ->].
    exists (p1 ++ p2). rewrite app_assoc. reflexivity.
Qed.

(** The layout of every frame [publish] returns: topic bytes, terminator,
    dim, the two length bytes, the specifier block, the rows. *)
Lemma publish_layout (topic : pystr) (data : list (list pyval))
    (format_specifier : list string) (s s' : state) (msg : list Z) :
  publish topic data format_specifier s = (Ok msg, s') ->
  exists len topic_bytes codes payload,
    publish_length data format_specifier = Ok len /\
    utf8 topic = Ok topic_bytes /\
    codes_of format_specifier = Ok codes /\
    msg = topic_bytes
            ++ [0; Z.of_nat (length data); Z.land len 255;
                Z.shiftr (Z.land len 65280) 8]
            ++ packed_block_spec codes ++ payload.
Proof.
  unfold publish. intros H. unfold bind at 1, lift at 1 in H.
  destruct (publish_length data format_specifier) as [len|x]; [|discriminate].
  unfold bind at 1, lift at 1 in H.
  destruct (utf8 topic) as [tb|x]; [|discriminate].
  unfold bind at 1, lift at 1 in H.
  rewrite pack_specifiers_spec in H by reflexivity.
  destruct (codes_of format_specifier) as [cs|x]; [|discriminate].
  cbn [rbind] in H. unfold bind at 1 in H.
  match type of H with
  | context [encode_rows ?i ?f ?d ?m ?st] =>
      destruct (encode_rows i f d m st) as [[m1|x] s1] eqn:E; [|discriminate]
  end.
  destruct (encode_rows_extends _ _ _ _ _ _ _ E) as [p ->].
  unfold bind, modify, ret in H. inversion H; subst.
  exists len, tb, cs, p. repeat split; try reflexivity.
  rewrite <- !app_assoc. reflexivity.
Qed.

(** C9. For every list of format specifiers, the frame [publish] returns
    carries, right after the header, exactly ceil(dim/2) specifier bytes;
    byte [k] has the code of specifier [2k] in its low nibble and the code
    of specifier [2k+1], when there is one, in its high nibble (zero
    otherwise). For [U8; S16; U32] the block is the two bytes 0x52, 0x06. *)
Theorem specifier_block (topic : pystr) (data : list (list pyval))
    (fmts : list FormatSpecifier) (s s' : state) (msg : list Z) :
  publish topic data (map name fmts) s = (Ok msg, s') ->
  exists header block payload,
    msg = header ++ block ++ payload /\
    (exists topic_bytes lo hi,
       utf8 topic = Ok topic_bytes /\
       header = topic_bytes ++ [0; Z.of_nat (length data); lo; hi]) /\
    length block = Nat.div2 (S (length fmts)) /\
    (forall (k : nat) (f : FormatSpecifier),
       fmts !! (2 * k)%nat = Some f ->
       exists b, block !! k = Some b /\
                 Z.land b 15 = code f /\
                 Z.shiftr b 4 =
                   match fmts !! (2 * k + 1)%nat with
                   | Some g => code g
                   | None => 0
                   end) /\
    (fmts = [U8; S16; U32] -> block = [82; 6]).
Proof.
  intros H.
  destruct (publish_layout _ _ _ _ _ _ H) as (len & tb & cs & p & _ & Ht & Hc & ->).
  rewrite codes_of_names in Hc. injection Hc as <-.
  exists (tb ++ [0; Z.of_nat (length data); Z.land len 255;
                 Z.shiftr (Z.land len 65280) 8]),
         (packed_block_spec (map code fmts)), p.
  split; [rewrite <- app_assoc; reflexivity|].
  split; [eauto|].
  split; [rewrite packed_block_length, length_map; reflexivity|].
  split; [apply packed_block_nibbles|].
  intros ->. reflexivity.
Qed.

Lemma specifier_block_witness :
  exists header block payload,
    [116; 0; 3; 1; 0; 82; 6; 1; 255; 255; 7; 0; 0; 0]
      = header ++ block ++ payload /\
    (exists topic_bytes lo hi,
       utf8 topic_t = Ok topic_bytes /\
       header = topic_bytes ++ [0; 3; lo; hi]) /\
    length block = 2%nat /\
    (forall (k : nat) (f : FormatSpecifier),
       [U8; S16; U32] !! (2 * k)%nat = Some f ->
       exists b, block !! k = Some b /\
                 Z.land b 15 = code f /\
                 Z.shiftr b 4 =
                   match [U8; S16; U32] !! (2 * k + 1)%nat with
                   | Some g => code g
                   | None => 0
                   end) /\
    ([U8; S16; U32] = [U8; S16; U32] -> block = [82; 6]).
Proof.
  apply (specifier_block topic_t [[PInt 1]; [PInt (-1)]; [PInt 7]]
           [U8; S16; U32] idle
           (set_frame
              (mkFrame [] [[116; 0; 3; 1; 0; 82; 6; 1; 255; 255; 7; 0; 0; 0]])
              idle)).
  vm_compute. reflexivity.
Defined.

(** C6, as amended. The two length bytes of a published frame hold, little
    endian and modulo 65536, the character count of [data[0][0]] exactly
    when the format list is ['STRING'], and the element count of [data[0]]
    for every other list, ['NONE'] and the lists of several specifiers
    included. *)
Theorem row_length_field (topic : pystr) (data : list (list pyval))
    (format_specifier : list string) (s s' : state) (msg : list Z) :
  publish topic data format_specifier s = (Ok msg, s') ->
  exists len topic_bytes lo hi rest,
    utf8 topic = Ok topic_bytes /\
    msg = topic_bytes ++ [0; Z.of_nat (length data); lo; hi] ++ rest /\
    0 <= lo < 256 /\ 0 <= hi < 256 /\
    lo + hi * 256 = len mod 65536 /\
    if bool_decide (format_specifier = ["STRING"%string])
    then exists str row0 rows,
           data = (PStr str :: row0) :: rows /\ len = Z.of_nat (length str)
    else exists row0 rows,
           data = row0 :: rows /\ len = Z.of_nat (length row0).
Proof.
  intros H.
  destruct (publish_layout _ _ _ _ _ _ H) as (len & tb & cs & p & Hl & Ht & _ & ->).
  exists len, tb, (Z.land len 255), (Z.shiftr (Z.land len 65280) 8),
         (packed_block_spec cs ++ p).
  split; [exact Ht|]. split; [reflexivity|].
  rewrite land_255, byte1_spec.
  split; [apply Z.mod_pos_bound; lia|].
  split; [apply Z.mod_pos_bound; lia|].
  split; [apply word16_bytes|].
  unfold publish_length in Hl.
  destruct (bool_decide (format_specifier = ["STRING"%string])).
  - destruct data as [|[|[v|str] row0] rows]; try discriminate.
    injection Hl as <-. eauto.
  - destruct data as [|row0 rows]; try discriminate.
    injection Hl as <-. eauto.
Qed.

Lemma row_length_field_witness :
  exists len topic_bytes lo hi rest,
    utf8 topic_t = Ok topic_bytes /\
    [116; 0; 1; 1; 0; 0; 104; 105] = topic_bytes ++ [0; 1; lo; hi] ++ rest /\
    0 <= lo < 256 /\ 0 <= hi < 256 /\
    lo + hi * 256 = len mod 65536 /\
    exists row0 rows,
      [[PStr [104; 105]]] = row0 :: rows /\ len = Z.of_nat (length row0).
Proof.
  apply (row_length_field topic_t [[PStr [104; 105]]] [name NONE] idle
           (set_frame (mkFrame [] [[116; 0; 1; 1; 0; 0; 104; 105]]) idle)).
  vm_compute. reflexivity.
Defined.

(** C6 as stated fails: published as ['NONE'], and as ['STRING', 'U8'], the
    two-character string "hi" gets the row length 1, the element count of
    the first row. *)
Lemma none_row_length_is_element_count :
  publish topic_t [[PStr [104; 105]]] [name NONE] idle =
    (Ok [116; 0; 1; 1; 0; 0; 104; 105],
     set_frame (mkFrame [] [[116; 0; 1; 1; 0; 0; 104; 105]]) idle) /\
  publish topic_t [[PStr [104; 105]]; [PInt 5]] [name STRING; name U8] idle =
    (Ok [116; 0; 2; 1; 0; 33; 104; 105; 5],
     set_frame (mkFrame [] [[116; 0; 2; 1; 0; 33; 104; 105; 5]]) idle).
Proof. split; vm_compute; reflexivity. Qed.

(** * The bytes of a numeric row *)

Lemma unsigned_data_ints (offset : Z) (row : list Z) :
  unsigned_data offset (map PInt row) = Ok (map (to_unsigned offset) row).
Proof.
  induction row as [|v row IH]; [reflexivity|].
  cbn [map unsigned_data]. rewrite IH. reflexivity.
Qed.

Lemma one_byte_nonzero (v : Z) :
  -256 < v < 256 -> v <> 0 -> to_unsigned 256 v = v mod 256.
Proof.
  intros. unfold to_unsigned. rewrite gtb_case.
  destruct (Z.ltb_spec 0 v); Z.div_mod_to_equations; lia.
Qed.

(** Two and four byte elements come out as the little-endian bytes of
    their two's complement, zero included. *)
Lemma bytes16_little_endian (v : Z) :
  bytes16 (to_unsigned 65536 v) = [v mod 256; (v / 256) mod 256].
Proof.
  unfold bytes16. rewrite land_255, byte1_spec. unfold to_unsigned.
  rewrite gtb_case. destruct (Z.ltb_spec 0 v); [reflexivity|].
  f_equal; [|f_equal]; Z.div_mod_to_equations; lia.
Qed.

Lemma bytes32_little_endian (v : Z) :
  bytes32 (to_unsigned 4294967296 v) =
    [v mod 256; (v / 256) mod 256; (v / 65536) mod 256;
     (v / 16777216) mod 256].
Proof.
  unfold bytes32. rewrite land_255, byte1_spec, byte2_spec, byte3_spec.
  unfold to_unsigned.
  rewrite gtb_case. destruct (Z.ltb_spec 0 v); [reflexivity|].
  f_equal; [|f_equal; [|f_equal; [|f_equal]]]; Z.div_mod_to_equations; lia.
Qed.

Lemma encode_row_two_bytes (f : FormatSpecifier) (i : nat)
    (data : list (list pyval)) (row msg : list Z) (s : state) :
  f = U16 \/ f = S16 -> data !! i = Some (map PInt row) ->
  encode_row i (name f) data msg s =
    (Ok (msg ++ flat_map (fun v => [v mod 256; (v / 256) mod 256]) row), s).
Proof.
  intros Hf Hi.
  assert (E : encode_row i (name f) data msg s =
    (Ok (msg ++ flat_map bytes16 (map (to_unsigned 65536) row)), s)).
  { destruct Hf as [-> | ->]; unfold encode_row, name, getitem;
      cbn [String.eqb Ascii.eqb Bool.eqb orb]; rewrite Hi; cbn [rbind];
      rewrite unsigned_data_ints; reflexivity. }
  rewrite E. rewrite flat_map_concat_map, map_map, <- flat_map_concat_map.
  rewrite (flat_map_ext_eq _ _ row bytes16_little_endian). reflexivity.
Qed.

Lemma encode_row_four_bytes (f : FormatSpecifier) (i : nat)
    (data : list (list pyval)) (row msg : list Z) (s : state) :
  f = U32 \/ f = S32 -> data !! i = Some (map PInt row) ->
  encode_row i (name f) data msg s =
    (Ok (msg ++ flat_map (fun v => [v mod 256; (v / 256) mod 256;
                                    (v / 65536) mod 256;
                                    (v / 16777216) mod 256]) row), s).
Proof.
  intros Hf Hi.
  assert (E : encode_row i (name f) data msg s =
    (Ok (msg ++ flat_map bytes32 (map (to_unsigned 4294967296) row)), s)).
  { destruct Hf as [-> | ->]; unfold encode_row, name, getitem;
      cbn [String.eqb Ascii.eqb Bool.eqb orb]; rewrite Hi; cbn [rbind];
      rewrite unsigned_data_ints; reflexivity. }
  rewrite E. rewrite flat_map_concat_map, map_map, <- flat_map_concat_map.
  rewrite (flat_map_ext_eq _ _ row bytes32_little_endian). reflexivity.
Qed.

(** A one-byte row comes out right as long as no element is zero. *)
Lemma encode_row_one_byte (f : FormatSpecifier) (i : nat)
    (data : list (list pyval)) (row msg : list Z) (s : state) :
  f = U8 \/ f = S8 -> data !! i = Some (map PInt row) ->
  Forall (fun v => -256 < v < 256 /\ v <> 0) row ->
  encode_row i (name f) data msg s =
    (Ok (msg ++ map (fun v => v mod 256) row), s).
Proof.
  intros Hf Hi Hrow.
  assert (E : encode_row i (name f) data msg s =
    (Ok (msg ++ map (to_unsigned 256) row), s)).
  { destruct Hf as [-> | ->]; unfold encode_row, name, getitem;
      cbn [String.eqb Ascii.eqb Bool.eqb orb]; rewrite Hi; cbn [rbind];
      rewrite unsigned_data_ints; reflexivity. }
  rewrite E.
  replace (map (to_unsigned 256) row) with (map (fun v => v mod 256) row);
    [reflexivity|].
  clear E Hi. induction Hrow as [|v row [Hv Hz] _ IH]; [reflexivity|].
  cbn [map]. rewrite IH, (one_byte_nonzero v Hv Hz). reflexivity.
Qed.

(** C5 at its failing input. Published as U8, the element 0 is not emitted
    as the byte 0: the comprehension of line 118 tests [x > 0], adds 256 to
    the zero, and nothing masks the result, so the frame ends with 256. *)
Theorem u8_zero_is_emitted_as_256 :
  publish topic_t [[PInt 0]] [name U8] idle =
    (Ok [116; 0; 1; 1; 0; 2; 256],
     set_frame (mkFrame [] [[116; 0; 1; 1; 0; 2; 256]]) idle).
Proof. vm_compute. reflexivity. Qed.

(** * The round trip of a one-element row *)

Lemma encode_rows_numeric (f : FormatSpecifier) (v : Z) (msg : list Z) (s : state) :
  numeric f = true ->
  encode_rows 0 [name f] [[PInt v]] msg s = (Ok (msg ++ payload f v), s).
Proof. destruct f; try discriminate; reflexivity. Qed.

Lemma publish_numeric (f : FormatSpecifier) (v : Z) (topic : pystr) (s : state) :
  numeric f = true -> ascii_text topic ->
  publish topic [[PInt v]] [name f] s =
    (Ok (topic ++ [0; 1; 1; 0; code f] ++ payload f v),
     set_frame (push_tx_message (topic ++ [0; 1; 1; 0; code f] ++ payload f v)
                  (frame s)) s).
Proof.
  intros Hf Ht. unfold publish.
  rewrite (bind_lift_ok _ 1) by (destruct f; try discriminate; reflexivity).
  rewrite (bind_lift_ok _ topic) by (apply utf8_ascii; exact Ht).
  rewrite (bind_lift_ok _ _ _ _ (pack_single f _)).
  rewrite (bind_ok _ _ _ _ _ (encode_rows_numeric f v _ s Hf)).
  unfold bind, modify, ret. simpl.
  rewrite <- !app_assoc. reflexivity.
Qed.

Lemma publish_string (str topic : pystr) (s : state) :
  ascii_text str -> ascii_text topic ->
  let len := Z.of_nat (length str) in
  let msg := topic ++ [0; 1; Z.land len 255; Z.shiftr (Z.land len 65280) 8;
                       code STRING] ++ str in
  publish topic [[PStr str]] [name STRING] s =
    (Ok msg, set_frame (push_tx_message msg (frame s)) s).
Proof.
  intros Hs Ht len msg. unfold publish.
  rewrite (bind_lift_ok _ len) by reflexivity.
  rewrite (bind_lift_ok _ topic) by (apply utf8_ascii; exact Ht).
  rewrite (bind_lift_ok _ _ _ _ (pack_single STRING _)).
  unfold encode_rows, encode_row, name.
  cbn [String.eqb Ascii.eqb Bool.eqb orb].
  change (getitem [[PStr str]] 0) with (Ok [PStr str]).
  cbn [rbind]. change (getitem [PStr str] 0) with (Ok (PStr str)).
  cbn [rbind bytearray_utf8]. rewrite (utf8_ascii str Hs).
  unfold bind, lift, modify, ret. cbn [rbind].
  subst msg. rewrite <- !app_assoc. reflexivity.
Qed.

Lemma decode_header_topic (topic rest : list Z) :
  topic_text topic ->
  decode_header (topic ++ 0 :: rest) =
    (let? '(dim, msg) := pop0 rest in
     let? '(len, msg) := pop0 msg in
     let? '(hi, msg) := pop0 msg in
     let? '(format_specifiers, msg) := read_specifiers 0 dim [] msg in
     Ok (topic, dim, len + hi * 256, format_specifiers, msg))%res.
Proof.
  intros H. unfold decode_header.
  rewrite (find_zero_terminator topic rest 0 H). simpl Nat.add.
  rewrite take_app_length.
  rewrite (join_chr_ascii topic (topic_text_ascii _ H)). simpl rbind.
  replace (drop (S (length topic)) (topic ++ 0 :: rest)) with rest.
  - reflexivity.
  - change (S (length topic)) with (1 + length topic)%nat.
    rewrite Nat.add_comm, <- drop_drop, drop_app_length. reflexivity.
Qed.

Lemma decode_header_single (f : FormatSpecifier) (topic rest : list Z) (lo hi : Z) :
  topic_text topic ->
  decode_header (topic ++ [0; 1; lo; hi; code f] ++ rest) =
    Ok (topic, 1, lo + hi * 256, [name f], rest).
Proof.
  intros Ht.
  change (topic ++ [0; 1; lo; hi; code f] ++ rest)
    with (topic ++ 0 :: [1; lo; hi; code f] ++ rest).
  rewrite (decode_header_topic topic _ Ht).
  destruct f; reflexivity.
Qed.

Lemma first_row (topic : pystr) (row rest : list Z) (s : state) :
  topical_data s = [] ->
  (ensure_rows topic ;; append_row topic row ;; ret rest)%M s =
    (Ok rest, set_topical_data [(topic, VRows [row])] s).
Proof.
  intros He. unfold bind, ensure_rows, modify, append_row. rewrite He.
  cbn [topical_data set_topical_data].
  change (dict_set topic (VRows []) []) with [(topic, VRows [])].
  rewrite dict_get_head. cbn [topical_data set_topical_data].
  rewrite dict_set_head. reflexivity.
Qed.

Lemma first_row_of (topic : pystr) (r : res (list Z)) (g : list Z -> list Z)
    (row0 rest : list Z) (s : state) :
  topical_data s = [] -> r = Ok row0 ->
  (ensure_rows topic ;;
   do row <- lift r; append_row topic (g row) ;; ret rest)%M s =
    (Ok rest, set_topical_data [(topic, VRows [g row0])] s).
Proof.
  intros He ->. rewrite <- (first_row topic (g row0) rest s He). reflexivity.
Qed.

Lemma word16_of_bytes (x : Z) :
  words16 (slice_to (bytes16 x) (1 * 2)) = Ok [x mod 65536].
Proof.
  change (slice_to (bytes16 x) (1 * 2)) with (bytes16 x).
  unfold bytes16. cbn [words16 rbind].
  rewrite land_255, byte1_spec, word16_bytes. reflexivity.
Qed.

Lemma word32_of_bytes (x : Z) :
  words32 (slice_to (bytes32 x) (1 * 4)) = Ok [x mod 4294967296].
Proof.
  change (slice_to (bytes32 x) (1 * 4)) with (bytes32 x).
  unfold bytes32. cbn [words32 rbind].
  rewrite land_255, byte1_spec, byte2_spec, byte3_spec, word32_bytes.
  reflexivity.
Qed.

Lemma unsigned8 (v : Z) : 0 <= v <= 255 -> v <> 0 -> to_unsigned 256 v = v.
Proof. intros. unfold to_unsigned. rewrite !gtb_case. split_sign; lia. Qed.

Lemma sign8 (v : Z) :
  -128 <= v <= 127 -> v <> 0 ->
  (if to_unsigned 256 v >? 127 then to_unsigned 256 v - 256
   else to_unsigned 256 v) = v.
Proof. intros. unfold to_unsigned. rewrite !gtb_case. split_sign; lia. Qed.

Lemma unsigned16 (v : Z) : 0 <= v <= 65535 -> to_unsigned 65536 v mod 65536 = v.
Proof.
  intros. unfold to_unsigned. rewrite !gtb_case. split_sign.
  - apply Z.mod_small. lia.
  - replace v with 0 by lia. reflexivity.
Qed.

Lemma sign16 (v : Z) :
  -32768 <= v <= 32767 ->
  (if to_unsigned 65536 v mod 65536 >? 32767
   then to_unsigned 65536 v mod 65536 - 65536
   else to_unsigned 65536 v mod 65536) = v.
Proof.
  intros. unfold to_unsigned. rewrite !gtb_case.
  destruct (Z.ltb_spec 0 v); cbv iota.
  - rewrite Z.mod_small by lia. split_sign; lia.
  - destruct (Z.eq_dec v 0) as [->|]; [reflexivity|].
    rewrite Z.mod_small by lia. split_sign; lia.
Qed.

Lemma unsigned32 (v : Z) :
  0 <= v <= 4294967295 -> to_unsigned 4294967296 v mod 4294967296 = v.
Proof.
  intros. unfold to_unsigned. rewrite !gtb_case. split_sign.
  - apply Z.mod_small. lia.
  - replace v with 0 by lia. reflexivity.
Qed.

Lemma sign32 (v : Z) :
  -2147483648 <= v <= 2147483647 -> v <> -2147483648 ->
  (if to_unsigned 4294967296 v mod 4294967296 >? 2147483648
   then to_unsigned 4294967296 v mod 4294967296 - 4294967296
   else to_unsigned 4294967296 v mod 4294967296) = v.
Proof.
  intros. unfold to_unsigned. rewrite !gtb_case.
  destruct (Z.ltb_spec 0 v); cbv iota.
  - rewrite Z.mod_small by lia. split_sign; lia.
  - destruct (Z.eq_dec v 0) as [->|]; [reflexivity|].
    rewrite Z.mod_small by lia. split_sign; lia.
Qed.

Lemma decode_rows_numeric (f : FormatSpecifier) (v : Z) (topic : pystr) (s : state) :
  representable f v -> off_the_slips f v -> topical_data s = [] ->
  decode_rows topic 1 [name f] (payload f v) s =
    (Ok tt, set_topical_data [(topic, VRows [[v]])] s).
Proof.
  intros Hr Hs He.
  destruct f; try contradiction; simpl in Hr, Hs;
    unfold decode_rows, decode_row, name;
    cbn [String.eqb Ascii.eqb Bool.eqb]; unfold payload.
  - erewrite bind_ok by (apply first_row; exact He).
    change (slice_to [to_unsigned 256 v] 1) with [to_unsigned 256 v].
    rewrite (unsigned8 v Hr Hs). reflexivity.
  - erewrite bind_ok by (apply first_row; exact He).
    change (slice_to [to_unsigned 256 v] 1) with [to_unsigned 256 v].
    cbn [map]. rewrite (sign8 v Hr Hs). reflexivity.
  - erewrite bind_ok
      by (apply (first_row_of topic _ (fun r => r));
          [exact He | apply word16_of_bytes]).
    rewrite (unsigned16 v Hr). reflexivity.
  - erewrite bind_ok
      by (apply (first_row_of topic _
                   (map (fun e => if e >? 32767 then e - 65536 else e)));
          [exact He | apply word16_of_bytes]).
    cbn [map]. rewrite (sign16 v Hr). reflexivity.
  - erewrite bind_ok
      by (apply (first_row_of topic _ (fun r => r));
          [exact He | apply word32_of_bytes]).
    rewrite (unsigned32 v Hr). reflexivity.
  - erewrite bind_ok
      by (apply (first_row_of topic _
                   (map (fun e => if e >? 2147483648 then e - 4294967296 else e)));
          [exact He | apply word32_of_bytes]).
    cbn [map]. rewrite (sign32 v Hr Hs). reflexivity.
Qed.

Lemma decode_rows_string (str topic : pystr) (len : Z) (s : state) :
  ascii_text str ->
  decode_rows topic len [name STRING] str s =
    (Ok tt, set_topical_data (dict_set topic (VStr str) (topical_data s)) s).
Proof.
  intros Hs. unfold decode_rows, decode_row, name.
  cbn [String.eqb Ascii.eqb Bool.eqb].
  unfold bind, lift. rewrite (join_chr_ascii str Hs). reflexivity.
Qed.

(** C1, as amended. For U8, S8, U16, S16, U32 and S32, every value [v] of
    the specifier's range other than 0 under U8 and S8 and other than -2^31
    under S32, and every ASCII topic without NUL: the frame published for
    [[v]], decoded on an empty topic store, gives back the topic, dim 1,
    row length 1, the specifier list, and stores [[v]]. For STRING and an
    ASCII string [s] of fewer than 65536 characters it gives back the topic,
    dim 1 and the specifier list, the row length is the length of [s], and
    the store holds [s] itself. *)
Theorem roundtrip_single_row (f : FormatSpecifier) (x : pyval) (topic : pystr)
    (s s1 : state) :
  in_range f x -> topic_text topic -> topical_data s1 = [] ->
  exists msg s',
    publish topic [[x]] [name f] s = (Ok msg, s') /\
    decode_frame msg s1 =
      (Ok (topic, 1, length_field x, [name f]),
       set_topical_data [(topic, stored_value x)] s1).
Proof.
  intros Hx Ht He. destruct x as [v|str]; simpl in Hx.
  - destruct Hx as [Hr Hs].
    assert (Hn : numeric f = true) by (destruct f; try contradiction; reflexivity).
    eexists _, _. split.
    + apply publish_numeric; [exact Hn | apply topic_text_ascii; exact Ht].
    + unfold decode_frame.
      rewrite (bind_lift_ok _ _ _ _ (decode_header_single f topic _ 1 0 Ht)).
      cbv beta iota.
      rewrite (bind_ok _ _ _ _ _ (decode_rows_numeric f v topic s1 Hr Hs He)).
      reflexivity.
  - destruct Hx as (-> & Hs & Hl).
    eexists _, _. split.
    + apply publish_string; [exact Hs | apply topic_text_ascii; exact Ht].
    + unfold decode_frame.
      rewrite (bind_lift_ok _ _ _ _ (decode_header_single STRING topic _ _ _ Ht)).
      cbv beta iota.
      rewrite (bind_ok _ _ _ _ _ (decode_rows_string str topic _ s1 Hs)).
      rewrite He. unfold ret. cbn [dict_set length_field stored_value].
      rewrite land_255, byte1_spec, word16_bytes.
      rewrite Z.mod_small by lia. reflexivity.
Qed.

Lemma roundtrip_single_row_witness :
  exists msg s',
    publish topic_t [[PInt (-128)]] [name S8] idle = (Ok msg, s') /\
    decode_frame msg idle =
      (Ok (topic_t, 1, 1, [name S8]),
       set_topical_data [(topic_t, VRows [[-128]])] idle).
Proof.
  apply (roundtrip_single_row S8 (PInt (-128)) topic_t idle idle).
  - split; simpl; lia.
  - repeat constructor; lia.
  - reflexivity.
Defined.

(** C1 as stated fails: for the STRING row [["ab"]] the decoded row length
    is 2, not 1. *)
Lemma string_row_length_is_its_character_count :
  ~ claimed_roundtrip STRING (PStr [97; 98]) topic_t idle.
Proof.
  intros (msg & s' & s'' & Hp & Hd & _).
  vm_compute in Hp. injection Hp as <- _.
  vm_compute in Hd. discriminate.
Qed.

(** The slips the amended statement leaves out: the least S32 value comes
    back as +2^31, and a NONE frame is logged and not stored. *)
Lemma s32_minimum_comes_back_positive :
  exists msg s' s'',
    publish topic_t [[PInt (-2147483648)]] [name S32] idle = (Ok msg, s') /\
    decode_frame msg idle = (Ok (topic_t, 1, 1, [name S32]), s'') /\
    topical_data s'' = [(topic_t, VRows [[2147483648]])].
Proof.
  eexists _, _, _.
  split; [vm_compute; reflexivity|].
  split; vm_compute; reflexivity.
Qed.

Lemma none_frame_is_not_stored :
  exists msg s' s'',
    publish topic_t [[PStr [97]]] [name NONE] idle = (Ok msg, s') /\
    decode_frame msg idle = (Ok (topic_t, 1, 1, [name NONE]), s'') /\
    topical_data s'' = [] /\
    events s'' = [LogError "unrecognized message type: NONE"].
Proof.
  eexists _, _, _.
  split; [vm_compute; reflexivity|].
  split; [vm_compute; reflexivity|].
  split; vm_compute; reflexivity.
Qed.

(** * Dispatch and the registry *)

Lemma call_all_events (cbs : list callback) (s : state) :
  call_all cbs s =
    (Ok tt,
     mkState (topical_data s) (subscribers s) (frame s) (run_thread s)
             (events s ++ calls cbs (topical_data s))).
Proof.
  revert s. induction cbs as [|cb cbs IH]; intros s.
  - unfold calls. simpl. rewrite app_nil_r. destruct s; reflexivity.
  - cbn [call_all]. unfold bind at 1. unfold call at 1.
    rewrite IH. unfold emit, calls. cbn [topical_data subscribers frame run_thread events map].
    rewrite <- app_assoc. reflexivity.
Qed.

Lemma dispatch_single (topic : pystr) (v : value) (s : state) :
  topical_data s = [(topic, v)] ->
  dispatch s =
    (Ok tt,
     mkState [] (subscribers s) (frame s) (run_thread s)
       (events s ++ calls (default [] (subscribers s !! topic)) [(topic, v)])).
Proof.
  intros Hd. unfold dispatch. rewrite Hd. cbn [map fst dispatch_keys].
  unfold bind at 1. unfold bind at 1.
  destruct (subscribers s !! topic) as [cbs|] eqn:Hsub.
  - unfold bind. rewrite call_all_events.
    unfold pop_topic. cbn [topical_data]. rewrite Hd, dict_pop_head.
    reflexivity.
  - unfold pop_topic. rewrite Hd, dict_pop_head. unfold ret, calls.
    cbn [default map set_topical_data]. rewrite app_nil_r. reflexivity.
Qed.

Lemma calls_readable (topic : pystr) (v : value) (cbs : list callback) :
  Forall (readable_during topic v) (calls cbs [(topic, v)]).
Proof.
  unfold calls. induction cbs as [|cb cbs IH]; constructor; [|exact IH].
  cbn [readable_during]. apply dict_get_head.
Qed.

(** C7. When dispatch runs with a value stored for a topic: without
    subscribers the value is dropped and nothing is called; with
    subscribers each one is called, in the order of registration and
    without argument, each call sees the value through [get_data], and the
    value is removed after the last call. Either way a later [get_data] of
    the topic raises [KeyError], which is how this code says NoData. *)
Theorem dispatch_consumes (topic : pystr) (v : value) (s : state) :
  topical_data s = [(topic, v)] ->
  exists s',
    dispatch s = (Ok tt, s') /\
    topical_data s' = [] /\
    get_data topic s' = (Raise KeyError, s') /\
    match subscribers s !! topic with
    | None => events s' = events s
    | Some cbs =>
        events s' = events s ++ calls cbs [(topic, v)] /\
        Forall (readable_during topic v) (calls cbs [(topic, v)])
    end.
Proof.
  intros Hd. eexists. split; [apply (dispatch_single topic v s Hd)|].
  split; [reflexivity|]. split; [reflexivity|].
  destruct (subscribers s !! topic) as [cbs|]; cbn [events default].
  - split; [reflexivity | apply calls_readable].
  - unfold calls. cbn [map]. apply app_nil_r.
Qed.

Lemma dispatch_consumes_witness :
  exists s',
    dispatch holding = (Ok tt, s') /\
    topical_data s' = [] /\
    get_data topic_t s' = (Raise KeyError, s') /\
    events s' = events holding
                  ++ calls [7%nat; 8%nat] [(topic_t, VStr [104; 105])] /\
    Forall (readable_during topic_t (VStr [104; 105]))
           (calls [7%nat; 8%nat] [(topic_t, VStr [104; 105])]).
Proof.
  exact (dispatch_consumes topic_t (VStr [104; 105]) holding eq_refl).
Defined.

Lemma subscribe_registers (topic : pystr) (cb : callback) (s : state) :
  exists s', subscribe topic cb s = (Ok tt, s') /\
    subscribers s' !! topic =
      Some (default [] (subscribers s !! topic) ++ [cb]).
Proof.
  unfold subscribe, modify. eexists. split; [reflexivity|].
  destruct (subscribers s !! topic) as [l|]; simpl; apply lookup_insert_eq.
Qed.

(** C8. [unsubscribe] of a topic without a registered list raises
    [KeyError] (the code's NotFound) and changes nothing; when removing the
    first matching callback leaves the list empty, the topic's entry leaves
    the registry. *)
Theorem unsubscribe_unknown_or_last (topic : pystr) (cb : callback) (s : state) :
  (subscribers s !! topic = None ->
   unsubscribe topic cb s = (Raise KeyError, s)) /\
  (forall l, subscribers s !! topic = Some l -> list_remove cb l = Ok [] ->
   exists s', unsubscribe topic cb s = (Ok tt, s') /\
              subscribers s' !! topic = None).
Proof.
  split.
  - intros H. unfold unsubscribe. rewrite H. reflexivity.
  - intros l H Hr. unfold unsubscribe. rewrite H.
    destruct l as [|c l]; [discriminate|]. rewrite Hr.
    eexists. split; [reflexivity|]. simpl. apply lookup_delete_eq.
Qed.

Lemma unsubscribe_unknown_or_last_witness :
  unsubscribe topic_t 7%nat idle = (Raise KeyError, idle) /\
  exists s', unsubscribe topic_t 7%nat listening = (Ok tt, s') /\
             subscribers s' !! topic_t = None.
Proof.
  split.
  - apply (proj1 (unsubscribe_unknown_or_last topic_t 7%nat idle)).
    vm_compute. reflexivity.
  - apply (proj2 (unsubscribe_unknown_or_last topic_t 7%nat listening)
             [7%nat]).
    + vm_compute. reflexivity.
    + reflexivity.
Defined.

(** * The ingest loop *)

Lemma keeps_ret {A} (a : A) : keeps_instance (ret a).
Proof. intros s. auto. Qed.

Lemma keeps_lift {A} (r : res A) : keeps_instance (lift r).
Proof. intros s. auto. Qed.

Lemma keeps_bind {A B} (m : M A) (k : A -> M B) :
  keeps_instance m -> (forall a, keeps_instance (k a)) ->
  keeps_instance (bind m k).
Proof.
  intros Hm Hk s. unfold bind. specialize (Hm s).
  destruct (m s) as [[a|e] s1]; simpl in Hm.
  - destruct (Hk a s1) as (H1 & H2 & H3).
    destruct Hm as (-> & -> & ->) in H1, H2, H3. auto.
  - exact Hm.
Qed.

Lemma keeps_store_update (f : state -> store) :
  keeps_instance (modify (fun s => set_topical_data (f s) s)).
Proof. intros s. auto. Qed.

Lemma keeps_logger_error (line : string) : keeps_instance (logger_error line).
Proof. intros s. auto. Qed.

Lemma keeps_ensure_rows (topic : pystr) : keeps_instance (ensure_rows topic).
Proof. intros s. unfold ensure_rows, modify. destruct (topical_data s); auto. Qed.

Lemma keeps_append_row (topic : pystr) (row : list Z) :
  keeps_instance (append_row topic row).
Proof.
  intros s. unfold append_row.
  destruct (dict_get topic (topical_data s)) as [[?|?]|]; auto.
Qed.

Lemma keeps_pop_topic (key : pystr) : keeps_instance (pop_topic key).
Proof.
  intros s. unfold pop_topic. destruct (dict_pop key (topical_data s)); auto.
Qed.

Lemma keeps_call (cb : callback) : keeps_instance (call cb).
Proof. intros s. auto. Qed.

Create HintDb keeps.

#[local] Hint Resolve keeps_ret keeps_lift keeps_bind keeps_store_update
  keeps_logger_error keeps_ensure_rows keeps_append_row keeps_pop_topic
  keeps_call : keeps.

Lemma keeps_call_all (cbs : list callback) : keeps_instance (call_all cbs).
Proof. induction cbs; simpl; auto with keeps. Qed.

Lemma keeps_decode_row (topic : pystr) (len : Z) (element : string) (msg : list Z) :
  keeps_instance (decode_row topic len element msg).
Proof.
  unfold decode_row.
  repeat match goal with
  | |- context [if ?b then _ else _] => destruct b
  end; auto 10 with keeps.
Qed.

Lemma keeps_decode_rows (topic : pystr) (len : Z) (fs : list string) (msg : list Z) :
  keeps_instance (decode_rows topic len fs msg).
Proof.
  revert msg. induction fs as [|e fs IH]; intros msg; simpl.
  - apply keeps_ret.
  - apply keeps_bind; [apply keeps_decode_row | intros a; apply IH].
Qed.

Lemma keeps_dispatch_keys (keys : list pystr) : keeps_instance (dispatch_keys keys).
Proof.
  induction keys as [|k keys IH]; simpl.
  - apply keeps_ret.
  - apply keeps_bind; [intros s; simpl; auto|].
    intros [cbs|]; (apply keeps_bind; [|intros _; exact IH]).
    + apply keeps_bind; [apply keeps_call_all | intros _; apply keeps_pop_topic].
    + apply keeps_pop_topic.
Qed.

Lemma keeps_process_msg (msg : list Z) : keeps_instance (process_msg msg).
Proof.
  unfold process_msg, decode_frame. apply keeps_bind.
  - apply keeps_bind; [apply keeps_lift|].
    intros [[[[topic dim] len] fs] rest].
    apply keeps_bind; [apply keeps_decode_rows | intros _; apply keeps_ret].
  - intros _ s. apply (keeps_dispatch_keys _ s).
Qed.

(** The loop with enough fuel is the recursion on the queue. *)
Lemma drain_loop_enough (fuel : nat) :
  forall s, (length (rx_queue (frame s)) <= fuel)%nat ->
  drain_loop fuel s = drain_from (rx_queue (frame s)) s.
Proof.
  induction fuel as [|n IH]; intros s Hl.
  - destruct (rx_queue (frame s)); [reflexivity | simpl in Hl; lia].
  - cbn [drain_loop]. unfold rx_is_available.
    destruct (rx_queue (frame s)) as [|msg rest] eqn:Hq; [reflexivity|].
    cbn [drain_from]. unfold bind at 1 3. unfold pull, pull_rx_message, modify.
    rewrite Hq. unfold bind.
    destruct (keeps_process_msg msg
                (set_frame (mkFrame rest (tx_queue (frame s))) s)) as (Hf & _).
    destruct (process_msg msg
                (set_frame (mkFrame rest (tx_queue (frame s))) s))
      as [[[]|e] s1]; [|reflexivity].
    simpl in Hf. rewrite IH; rewrite Hf; simpl in *; [reflexivity | lia].
Qed.

Lemma drain_eq (s : state) : drain s = drain_from (rx_queue (frame s)) s.
Proof. apply drain_loop_enough. reflexivity. Qed.

(** C2, as amended. There is no exception handler in [run]: when the
    decoding or dispatching of the frame at the head of the queue raises,
    the loop ends with that exception and the frames behind it stay queued,
    undecoded. When it raises nothing, the loop goes on with the rest of
    the queue. *)
Theorem drain_stops_at_failure (msg : list Z) (rest : list (list Z)) (s : state) :
  rx_queue (frame s) = msg :: rest ->
  (forall e s', process_msg msg (pulled s rest) = (Raise e, s') ->
     drain s = (Raise e, s') /\ rx_queue (frame s') = rest) /\
  (forall s', process_msg msg (pulled s rest) = (Ok tt, s') ->
     drain s = drain s' /\ rx_queue (frame s') = rest).
Proof.
  intros Hq.
  assert (Hk : forall r s', process_msg msg (pulled s rest) = (r, s') ->
                 rx_queue (frame s') = rest).
  { intros r s' H. destruct (keeps_process_msg msg (pulled s rest)) as (Hf & _).
    rewrite H in Hf. simpl in Hf. rewrite Hf. reflexivity. }
  split; intros; (split; [|eapply Hk; eassumption]).
  - rewrite drain_eq, Hq. cbn [drain_from]. unfold bind at 1, modify.
    fold (pulled s rest). unfold bind. rewrite H. reflexivity.
  - rewrite drain_eq, Hq. cbn [drain_from]. unfold bind at 1, modify.
    fold (pulled s rest). unfold bind. rewrite H.
    rewrite (drain_eq s'), (Hk _ _ H). reflexivity.
Qed.

Lemma drain_stops_at_failure_witness :
  drain two_queued =
    (Raise IndexError, pulled two_queued [good_frame]) /\
  rx_queue (frame (pulled two_queued [good_frame])) = [good_frame].
Proof.
  apply (proj1 (drain_stops_at_failure truncated_frame [good_frame]
                  two_queued eq_refl)).
  vm_compute. reflexivity.
Defined.

(** C2 as stated fails: a truncated frame ahead of a good one ends the
    loop with [IndexError]; nothing is logged, the subscriber of the good
    frame is never called, and the good frame is still in the queue. *)
Lemma failure_ends_the_loop :
  drain two_queued =
    (Raise IndexError,
     mkState [] {[ topic_t := [7%nat] ]} (mkFrame [good_frame] []) true []).
Proof. vm_compute. reflexivity. Qed.

Lemma decode_header_no_terminator (msg : list Z) :
  Forall (fun b => b <> 0) msg ->
  decode_header msg = decode_header (0 :: drop 1 msg).
Proof.
  intros H. unfold decode_header.
  rewrite (find_zero_none msg 0 H). reflexivity.
Qed.

(** C3, as amended. A frame without any 0x00 byte is not refused: the
    decoder takes the empty string for topic, drops the first byte, and
    reads dim, length, specifiers and rows from the second byte on, exactly
    as for the frame whose first byte is replaced by 0x00; the loop treats
    the two frames alike. *)
Theorem no_terminator_empty_topic (msg : list Z) :
  Forall (fun b => b <> 0) msg ->
  (forall topic dim len fs rest,
     decode_header msg = Ok (topic, dim, len, fs, rest) -> topic = []) /\
  process_msg msg = process_msg (0 :: drop 1 msg) /\
  (forall s queue, rx_queue (frame s) = msg :: queue ->
     drain s = drain (pulled s ((0 :: drop 1 msg) :: queue))).
Proof.
  intros H. pose proof (decode_header_no_terminator msg H) as Hh.
  assert (Hp : process_msg msg = process_msg (0 :: drop 1 msg)).
  { unfold process_msg, decode_frame. rewrite Hh. reflexivity. }
  split; [|split].
  - intros topic dim len fs rest Hd. unfold decode_header in Hd.
    rewrite (find_zero_none msg 0 H) in Hd.
    change (take 0 msg) with (@nil Z) in Hd. cbn [join_chr rbind] in Hd.
    destruct (pop0 (drop 1 msg)) as [[dim' m1]|]; [|discriminate].
    cbn [rbind] in Hd.
    destruct (pop0 m1) as [[lo m2]|]; [|discriminate]. cbn [rbind] in Hd.
    destruct (pop0 m2) as [[hi m3]|]; [|discriminate]. cbn [rbind] in Hd.
    destruct (read_specifiers 0 dim' [] m3) as [[fs' m4]|]; [|discriminate].
    cbn [rbind] in Hd. congruence.
  - exact Hp.
  - intros s queue Hq. rewrite !drain_eq, Hq.
    unfold pulled at 1. cbn [frame set_frame rx_queue drain_from].
    rewrite Hp. reflexivity.
Qed.

Lemma no_terminator_empty_topic_witness :
  process_msg unterminated_frame = process_msg (0 :: drop 1 unterminated_frame).
Proof.
  apply (no_terminator_empty_topic unterminated_frame).
  repeat constructor; discriminate.
Defined.

(** C3 as stated fails: the frame 65 1 1 1 2 7 has no zero byte, yet it is
    decoded as one U8 row for the empty topic and handed to that topic's
    subscriber. *)
Lemma unterminated_frame_is_dispatched :
  process_msg unterminated_frame listening_empty_topic =
    (Ok tt,
     mkState [] {[ [] := [9%nat] ]} (mkFrame [] []) true
             [Called 9%nat [([], VRows [[7]])]]).
Proof. vm_compute. reflexivity. Qed.

(** C4, as amended. A FLOAT specifier is logged and skipped on both sides:
    [publish] logs 'width not supported: FLOAT', emits no byte for the row
    and goes on with the next row; the decoder logs 'FLOAT not currently
    supported!', consumes no byte and goes on with the next specifier.
    Neither raises: a lone FLOAT row is published as the bare header, and
    a frame with the lone FLOAT nibble decodes without storing anything. *)
Theorem float_logged_and_skipped :
  (forall i rest data msg s,
     encode_rows i (name FLOAT :: rest) data msg s =
       encode_rows (S i) rest data msg
         (emit (LogError "width not supported: FLOAT") s)) /\
  (forall topic len rest msg s,
     decode_rows topic len (name FLOAT :: rest) msg s =
       decode_rows topic len rest msg
         (emit (LogError "FLOAT not currently supported!") s)) /\
  (forall topic row0 rows s,
     ascii_text topic ->
     let len := Z.of_nat (length row0) in
     let msg := topic ++ [0; Z.of_nat (length (row0 :: rows)); Z.land len 255;
                          Z.shiftr (Z.land len 65280) 8; code FLOAT] in
     let s' := emit (LogError "width not supported: FLOAT") s in
     publish topic (row0 :: rows) [name FLOAT] s =
       (Ok msg, set_frame (push_tx_message msg (frame s')) s')) /\
  (forall topic lo hi rest s,
     topic_text topic ->
     decode_frame (topic ++ [0; 1; lo; hi; code FLOAT] ++ rest) s =
       (Ok (topic, 1, lo + hi * 256, [name FLOAT]),
        emit (LogError "FLOAT not currently supported!") s)).
Proof.
  split; [reflexivity|]. split; [reflexivity|]. split.
  - intros topic row0 rows s Ht len msg s'. unfold publish.
    rewrite (bind_lift_ok _ len) by reflexivity.
    rewrite (bind_lift_ok _ topic) by (apply utf8_ascii; exact Ht).
    rewrite (bind_lift_ok _ _ _ _ (pack_single FLOAT _)).
    subst msg s'. unfold bind, modify, ret. cbn [encode_rows bind].
    rewrite <- !app_assoc. reflexivity.
  - intros topic lo hi rest s Ht. unfold decode_frame.
    rewrite (bind_lift_ok _ _ _ _ (decode_header_single FLOAT topic _ lo hi Ht)).
    reflexivity.
Qed.

Lemma float_logged_and_skipped_witness :
  decode_frame (topic_t ++ [0; 1; 1; 0; code FLOAT] ++ [5]) idle =
    (Ok (topic_t, 1, 1 + 0 * 256, [name FLOAT]),
     emit (LogError "FLOAT not currently supported!") idle).
Proof.
  apply (proj2 (proj2 (proj2 float_logged_and_skipped))).
  repeat constructor; lia.
Defined.

(** C4 as stated fails: [publish] with ['FLOAT', 'U8'] returns a frame, and
    the loop decodes that frame and calls the subscriber. *)
Lemma float_is_not_refused :
  publish topic_t [[PInt 1]; [PInt 2]] [name FLOAT; name U8] idle =
    (Ok [116; 0; 2; 1; 0; 40; 2],
     mkState [] ∅ (mkFrame [] [[116; 0; 2; 1; 0; 40; 2]]) true
             [LogError "width not supported: FLOAT"]) /\
  process_msg [116; 0; 2; 1; 0; 40; 2] listening =
    (Ok tt,
     mkState [] {[ topic_t := [7%nat] ]} (mkFrame [] []) true
             [LogError "FLOAT not currently supported!";
              Called 7%nat [(topic_t, VRows [[2]])]]).
Proof. split; vm_compute; reflexivity. Qed.

(** Decoding a frame on an empty store leaves at most the value of the
    frame's topic, and dispatch removes it: the store is empty again when
    the next frame is decoded. *)
Lemma decode_row_at_most (topic : pystr) (len : Z) (element : string)
    (msg : list Z) (s : state) :
  at_most topic (topical_data s) ->
  at_most topic (topical_data (snd (decode_row topic len element msg s))).
Proof.
  intros H.
  assert (Hens : at_most topic (topical_data (snd (ensure_rows topic s)))).
  { unfold ensure_rows, modify. destruct (topical_data s) eqn:E; simpl.
    - right. eauto.
    - rewrite E. exact H. }
  assert (Happ : forall row s0, at_most topic (topical_data s0) ->
            at_most topic (topical_data (snd (append_row topic row s0)))).
  { intros row s0 H0. unfold append_row.
    destruct (dict_get topic (topical_data s0)) as [[?|rows]|]; simpl; auto.
    rewrite (at_most_set topic _ _ H0). right. eauto. }
  assert (Hrow : forall (r : res (list Z)) (g : list Z -> list Z) (rest : list Z),
            at_most topic (topical_data (snd
              ((ensure_rows topic ;;
                do row <- lift r; append_row topic (g row) ;; ret rest)%M s)))).
  { intros r g rest. unfold bind at 1.
    change (ensure_rows topic s) with (Ok tt, snd (ensure_rows topic s)).
    set (s1 := snd (ensure_rows topic s)) in *. pose proof Hens as H1.
    unfold bind, lift. destruct r as [row|x]; [|exact H1].
    specialize (Happ (g row) s1 H1).
    destruct (append_row topic (g row) s1) as [[[]|x] s2]; exact Happ. }
  unfold decode_row.
  repeat match goal with
  | |- context [if ?b then _ else _] => destruct b
  end;
  first
    [ exact H
    | exact (Hrow _ (fun r => r) _)
    | exact (Hrow _ _ _)
    | exact (Hrow (Ok (slice_to msg len)) (fun r => r) _)
    | exact (Hrow (Ok (slice_to msg len))
               (map (fun e => if e >? 127 then e - 256 else e)) _)
    | unfold bind, lift; destruct (join_chr msg); [|exact H];
      simpl; rewrite (at_most_set topic _ _ H); right; eauto ].
Qed.

Lemma decode_rows_at_most (topic : pystr) (len : Z) (fs : list string) :
  forall (msg : list Z) (s : state),
  at_most topic (topical_data s) ->
  at_most topic (topical_data (snd (decode_rows topic len fs msg s))).
Proof.
  induction fs as [|e fs IH]; intros msg s H; [exact H|].
  cbn [decode_rows]. unfold bind.
  pose proof (decode_row_at_most topic len e msg s H) as H1.
  destruct (decode_row topic len e msg s) as [[m|x] s1]; simpl in H1.
  - apply IH. exact H1.
  - exact H1.
Qed.

Lemma process_msg_leaves_store_empty (msg : list Z) (s s' : state) :
  topical_data s = [] -> process_msg msg s = (Ok tt, s') ->
  topical_data s' = [].
Proof.
  intros He H. unfold process_msg, bind in H.
  destruct (decode_frame msg s) as [[a|x] s1] eqn:Ed; [|discriminate].
  assert (H1 : exists topic, at_most topic (topical_data s1)).
  { unfold decode_frame, bind, lift in Ed.
    destruct (decode_header msg) as [[[[[topic dim] len] fs] rest]|x].
    - exists topic.
      pose proof (decode_rows_at_most topic len fs rest s (or_introl He)) as Ha.
      destruct (decode_rows topic len fs rest s) as [[[]|x] s2]; simpl in Ha;
        inversion Ed; subst; exact Ha.
    - discriminate. }
  destruct H1 as (topic & [H0 | [v Hv]]).
  - unfold dispatch in H. rewrite H0 in H. inversion H; subst. exact H0.
  - rewrite (dispatch_single topic v s1 Hv) in H. inversion H. reflexivity.
Qed.

(** A loop that ends without exception has taken every frame. *)
Lemma drain_from_empties_queue (queue : list (list Z)) :
  forall s s', rx_queue (frame s) = queue ->
  drain_from queue s = (Ok tt, s') -> rx_queue (frame s') = [].
Proof.
  induction queue as [|msg rest IH]; intros s s' Hq H.
  - inversion H; subst. exact Hq.
  - cbn [drain_from] in H. unfold bind at 1, modify in H. unfold bind in H.
    destruct (keeps_process_msg msg
                (set_frame (mkFrame rest (tx_queue (frame s))) s)) as (Hf & _).
    destruct (process_msg msg
                (set_frame (mkFrame rest (tx_queue (frame s))) s))
      as [[[]|e] s1]; [|discriminate].
    simpl in Hf. apply (IH s1 s'); [rewrite Hf; reflexivity | exact H].
Qed.

Lemma drain_empties_queue (s s' : state) :
  drain s = (Ok tt, s') -> rx_queue (frame s') = [].
Proof.
  rewrite drain_eq. apply drain_from_empties_queue. reflexivity.
Qed.

(** * Several instances *)

(** C10, as amended. The topic store and the registry are attributes of
    the class: after any method called through instance [i], every instance
    [j] reads the same registry and the same store as [i], so a
    subscription made through [i] is part of what [j] reads. Only the
    transport and the run flag are of the instance, and a call through [i]
    leaves those of every other instance alone. *)
Theorem registry_shared_by_instances (i j : nat) (w : world) :
  is_Some (w_instances w !! j) ->
  (forall A (m : M A) r w',
     via i m w = Some (r, w') ->
     subscribers_of j w' = Some (w_subscribers w') /\
     subscribers_of i w' = Some (w_subscribers w') /\
     topical_data_of j w' = Some (w_topical_data w') /\
     topical_data_of i w' = Some (w_topical_data w') /\
     (j <> i -> w_instances w' !! j = w_instances w !! j)) /\
  (forall topic cb r w',
     via i (subscribe topic cb) w = Some (r, w') ->
     exists reg, subscribers_of j w' = Some reg /\
       reg !! topic = Some (default [] (w_subscribers w !! topic) ++ [cb])).
Proof.
  intros Hj.
  assert (Hgen : forall A (m : M A) r w',
     via i m w = Some (r, w') ->
     is_Some (w_instances w' !! j) /\ is_Some (w_instances w' !! i) /\
     (j <> i -> w_instances w' !! j = w_instances w !! j)).
  { intros A m r w' H. unfold via in H.
    destruct (w_instances w !! i) as [o|] eqn:Hi; [|discriminate].
    destruct (m (load w o)) as [r' s']. injection H as <- <-.
    unfold unload. cbn [w_instances].
    split; [|split].
    - apply lookup_lt_is_Some. rewrite length_insert.
      apply lookup_lt_is_Some. exact Hj.
    - apply lookup_lt_is_Some. rewrite length_insert.
      apply lookup_lt_is_Some. rewrite Hi. eauto.
    - intros Hne. apply list_lookup_insert_ne. congruence. }
  split.
  - intros A m r w' H. destruct (Hgen A m r w' H) as ([oj Hoj] & [oi Hoi] & Hne).
    unfold subscribers_of, topical_data_of. rewrite Hoj, Hoi.
    repeat split; try reflexivity.
    intros Hji. rewrite <- Hoj. exact (Hne Hji).
  - intros topic cb r w' H.
    destruct (Hgen _ _ _ _ H) as ([oj Hoj] & _ & _).
    unfold subscribers_of. rewrite Hoj. eexists. split; [reflexivity|].
    unfold via in H.
    destruct (w_instances w !! i) as [o|]; [|discriminate].
    destruct (subscribe_registers topic cb (load w o)) as (s' & Hs & Hl).
    rewrite Hs in H. injection H as <- <-. exact Hl.
Qed.

Lemma registry_shared_by_instances_witness :
  exists reg,
    subscribers_of 1
      (mkWorld [] {[ topic_t := [5%nat] ]} []
               [mkInstance (mkFrame [] []) true;
                mkInstance (mkFrame [] []) true]) = Some reg /\
    reg !! topic_t = Some ([] ++ [5%nat]).
Proof.
  apply (proj2 (registry_shared_by_instances 0 1 two_instances
                  (ex_intro _ _ eq_refl)) topic_t 5%nat (Ok tt)).
  vm_compute. reflexivity.
Defined.

(** C10 as stated fails: a [subscribe] through one instance changes the
    registry the other instance reads. *)
Lemma subscribe_reaches_the_other_instance :
  exists w',
    via 0 (subscribe topic_t 5%nat) two_instances = Some (Ok tt, w') /\
    subscribers_of 1 w' <> subscribers_of 1 two_instances.
Proof.
  eexists. split; [vm_compute; reflexivity|].
  intros H.
  apply (f_equal (fun o => o ≫= fun reg : gmap pystr (list callback) =>
                                   reg !! topic_t)) in H.
  vm_compute in H. discriminate.
Qed.

(** * Rows of integers through publish and back *)

Lemma encode_row_numeric (f : FormatSpecifier) (i : nat)
    (data : list (list pyval)) (row msg : list Z) (s : state) :
  numeric f = true -> data !! i = Some (map PInt row) ->
  encode_row i (name f) data msg s = (Ok (msg ++ row_bytes f row), s).
Proof.
  intros Hf Hi.
  destruct f; try discriminate; unfold encode_row, name, getitem;
    cbn [String.eqb Ascii.eqb Bool.eqb orb]; rewrite Hi; cbn [rbind];
    rewrite unsigned_data_ints; reflexivity.
Qed.

Lemma encode_rows_numeric_rows (fs : list FormatSpecifier) :
  forall (pre rows : list (list Z)) (msg : list Z) (s : state),
  Forall (fun f => numeric f = true) fs -> length fs = length rows ->
  encode_rows (length pre) (map name fs) (map (map PInt) (pre ++ rows)) msg s =
    (Ok (msg ++ concat (zip_with row_bytes fs rows)), s).
Proof.
  induction fs as [|f fs IH]; intros pre rows msg s Hn Hl.
  - destruct rows; [|discriminate]. simpl. rewrite app_nil_r. reflexivity.
  - destruct rows as [|row rows]; [discriminate|].
    inversion Hn as [|? ? Hf Hfs]; subst.
    cbn [map encode_rows]. unfold bind.
    rewrite (encode_row_numeric f (length pre) _ row msg s Hf).
    + replace (pre ++ row :: rows) with ((pre ++ [row]) ++ rows)
        by (rewrite <- app_assoc; reflexivity).
      replace (S (length pre)) with (length (pre ++ [row]))
        by (rewrite length_app; simpl; lia).
      rewrite IH by (auto; simpl in Hl; lia).
      cbn [zip_with concat]. rewrite app_assoc. reflexivity.
    + rewrite list_lookup_fmap, lookup_app_r by lia.
      replace (length pre - length pre)%nat with 0%nat by lia. reflexivity.
Qed.

Lemma numeric_names_not_string (fs : list FormatSpecifier) :
  Forall (fun f => numeric f = true) fs ->
  bool_decide (map name fs = ["STRING"%string]) = false.
Proof.
  intros H. apply bool_decide_eq_false_2. intros E.
  destruct fs as [|f [|g fs]]; try discriminate.
  inversion H as [|? ? Hf _]; subst. destruct f; discriminate.
Qed.

Lemma row_in_range_shape (n : nat) (fs : list FormatSpecifier)
    (rows : list (list Z)) :
  Forall2 (row_in_range n) fs rows -> Forall2 (row_shape n) fs rows.
Proof.
  intros H. eapply Forall2_impl; [exact H|].
  intros f row (Hf & Hl & _). split; assumption.
Qed.

Lemma publish_numeric_rows (topic : pystr) (fs : list FormatSpecifier)
    (rows : list (list Z)) (n : nat) (s : state) :
  ascii_text topic -> Forall2 (row_shape n) fs rows -> fs <> [] ->
  publish topic (map (map PInt) rows) (map name fs) s =
    (Ok (numeric_frame topic fs rows n),
     set_frame (push_tx_message (numeric_frame topic fs rows n) (frame s)) s).
Proof.
  intros Ht H2 Hne.
  assert (Hnum : Forall (fun f => numeric f = true) fs).
  { clear Hne. induction H2 as [|f row fs rows (Hf & _) _ IH]; constructor; auto. }
  assert (Hlen : length fs = length rows) by (eapply Forall2_length; eauto).
  unfold publish.
  rewrite (bind_lift_ok _ (Z.of_nat n)).
  2:{ unfold publish_length. rewrite (numeric_names_not_string fs Hnum).
      destruct H2 as [|f row fs rows (_ & Hr) _]; [congruence|].
      simpl. rewrite length_map, Hr. reflexivity. }
  rewrite (bind_lift_ok _ topic) by (apply utf8_ascii; exact Ht).
  rewrite (bind_lift_ok _
             ((topic ++ [0] ++ [Z.of_nat (length (map (map PInt) rows))]
                 ++ [Z.land (Z.of_nat n) 255]
                 ++ [Z.shiftr (Z.land (Z.of_nat n) 65280) 8])
                ++ packed_block_spec (map code fs))).
  2:{ rewrite pack_specifiers_spec by reflexivity.
      rewrite codes_of_names. reflexivity. }
  rewrite (bind_ok _ _ _ _ _
             (encode_rows_numeric_rows fs [] rows _ s Hnum Hlen)).
  unfold bind, modify, ret, numeric_frame. rewrite length_map.
  rewrite <- !app_assoc. reflexivity.
Qed.

Lemma low_nibble_name (a b : FormatSpecifier) :
  table_get format_specifiers
    (Z.land (Z.land (code a) 15 + Z.shiftl (Z.land (code b) 15) 4) 15)
  = Ok (name a).
Proof. destruct a, b; reflexivity. Qed.

Lemma high_nibble_name (a b : FormatSpecifier) :
  table_get format_specifiers
    (Z.shiftr (Z.land (Z.land (code a) 15 + Z.shiftl (Z.land (code b) 15) 4) 240) 4)
  = Ok (name b).
Proof. destruct a, b; reflexivity. Qed.

Lemma last_nibble_name (a : FormatSpecifier) :
  table_get format_specifiers (Z.land (Z.land (code a) 15) 15) = Ok (name a).
Proof. destruct a; reflexivity. Qed.

(** The loop of lines 167-179 reads back what the loop of lines 104-109
    packed, and stops after the block. *)
Lemma read_packed_specifiers (fs : list FormatSpecifier) :
  fs <> [] ->
  forall (i : Z) (acc : list string) (rest : list Z),
  read_specifiers i (i + Z.of_nat (length fs)) acc
    (packed_block_spec (map code fs) ++ rest)
  = Ok (acc ++ map name fs, rest).
Proof.
  induction fs as [|a|a b l IH] using pair_induction; intros Hne i acc rest.
  - contradiction.
  - cbn [map packed_block_spec app read_specifiers length].
    rewrite last_nibble_name. cbn [rbind].
    replace (i + 1 =? i + Z.of_nat 1) with true
      by (symmetry; apply Z.eqb_eq; lia).
    reflexivity.
  - cbn [map packed_block_spec app read_specifiers length].
    rewrite low_nibble_name. cbn [rbind].
    replace (i + 1 =? i + Z.of_nat (S (S (length l)))) with false
      by (symmetry; apply Z.eqb_neq; lia).
    rewrite high_nibble_name. cbn [rbind].
    destruct l as [|c l].
    + replace (i + 2 =? i + Z.of_nat (S (S (length (@nil FormatSpecifier)))))
        with true by (symmetry; apply Z.eqb_eq; simpl; lia).
      rewrite <- app_assoc. reflexivity.
    + replace (i + 2 =? i + Z.of_nat (S (S (length (c :: l))))) with false
        by (symmetry; apply Z.eqb_neq; simpl length; lia).
      replace (i + Z.of_nat (S (S (length (c :: l)))))
        with (i + 2 + Z.of_nat (length (c :: l))) by lia.
      rewrite IH by discriminate.
      rewrite <- !app_assoc. reflexivity.
Qed.

Lemma decode_header_numeric_frame (topic : pystr) (fs : list FormatSpecifier)
    (rows : list (list Z)) (n : nat) :
  topic_text topic -> fs <> [] -> length fs = length rows ->
  Z.of_nat n < 65536 ->
  decode_header (numeric_frame topic fs rows n) =
    Ok (topic, Z.of_nat (length rows), Z.of_nat n, map name fs,
        concat (zip_with row_bytes fs rows)).
Proof.
  intros Ht Hne Hl Hn. unfold numeric_frame.
  change (topic ++ [0; Z.of_nat (length rows); Z.land (Z.of_nat n) 255;
                    Z.shiftr (Z.land (Z.of_nat n) 65280) 8] ++ ?x)
    with (topic ++ 0 :: [Z.of_nat (length rows); Z.land (Z.of_nat n) 255;
                         Z.shiftr (Z.land (Z.of_nat n) 65280) 8] ++ x).
  rewrite (decode_header_topic topic _ Ht).
  cbn [app pop0 rbind].
  pose proof (read_packed_specifiers fs Hne 0 []
                (concat (zip_with row_bytes fs rows))) as Hr.
  rewrite Hl in Hr. cbn [Z.add] in Hr. simpl app in Hr.
  replace (0 + Z.of_nat (length rows)) with (Z.of_nat (length rows)) in Hr by lia.
  rewrite Hr. cbn [rbind].
  rewrite land_255, byte1_spec, word16_bytes, Z.mod_small by lia.
  reflexivity.
Qed.

Lemma words16_of_row (us : list Z) :
  words16 (flat_map bytes16 us) = Ok (map (fun u => u mod 65536) us).
Proof.
  induction us as [|u us IH]; [reflexivity|].
  cbn [flat_map bytes16 app words16 map]. rewrite IH. cbn [rbind].
  rewrite land_255, byte1_spec, word16_bytes. reflexivity.
Qed.

Lemma words32_of_row (us : list Z) :
  words32 (flat_map bytes32 us) = Ok (map (fun u => u mod 4294967296) us).
Proof.
  induction us as [|u us IH]; [reflexivity|].
  cbn [flat_map bytes32 app words32 map]. rewrite IH. cbn [rbind].
  rewrite land_255, byte1_spec, byte2_spec, byte3_spec, word32_bytes.
  reflexivity.
Qed.

Lemma row_bytes_length (f : FormatSpecifier) (row : list Z) :
  numeric f = true ->
  Z.of_nat (length (row_bytes f row)) = Z.of_nat (length row) * width f.
Proof.
  intros Hf.
  assert (H16 : forall us, length (flat_map bytes16 us) = (2 * length us)%nat).
  { induction us as [|u us IH]; simpl in *; lia. }
  assert (H32 : forall us, length (flat_map bytes32 us) = (4 * length us)%nat).
  { induction us as [|u us IH]; simpl in *; lia. }
  destruct f; try discriminate; unfold row_bytes, width;
    rewrite ?H16, ?H32, !length_map; lia.
Qed.

Lemma slice_prefix (b rest : list Z) (k : Z) :
  k = Z.of_nat (length b) ->
  slice_to (b ++ rest) k = b /\ slice_from (b ++ rest) k = rest.
Proof.
  intros ->. unfold slice_to, slice_from.
  destruct (Z.leb_spec 0 (Z.of_nat (length b))); [|lia].
  rewrite Nat2Z.id, take_app_length, drop_app_length. auto.
Qed.

Lemma next_row (topic : pystr) (acc : list (list Z)) (row rest : list Z)
    (s : state) :
  rows_so_far topic acc (topical_data s) ->
  (ensure_rows topic ;; append_row topic row ;; ret rest)%M s =
    (Ok rest, set_topical_data [(topic, VRows (acc ++ [row]))] s).
Proof.
  intros [[-> He] | He].
  - apply first_row. exact He.
  - unfold bind, ensure_rows, modify, append_row. rewrite He.
    cbn [topical_data set_topical_data]. rewrite He, dict_get_head.
    rewrite dict_set_head. reflexivity.
Qed.

Lemma next_row_of (topic : pystr) (acc : list (list Z)) (r : res (list Z))
    (g : list Z -> list Z) (row0 rest : list Z) (s : state) :
  rows_so_far topic acc (topical_data s) -> r = Ok row0 ->
  (ensure_rows topic ;;
   do row <- lift r; append_row topic (g row) ;; ret rest)%M s =
    (Ok rest, set_topical_data [(topic, VRows (acc ++ [g row0]))] s).
Proof.
  intros Ha ->. rewrite <- (next_row topic acc (g row0) rest s Ha). reflexivity.
Qed.

Lemma map_back (h : Z -> Z) (P : Z -> Prop) (row : list Z) :
  (forall v, P v -> h v = v) -> Forall P row -> map h row = row.
Proof.
  intros Hh H. induction H as [|v row Hv _ IH]; [reflexivity|].
  cbn [map]. rewrite IH, (Hh v Hv). reflexivity.
Qed.

Lemma decode_row_numeric_row (f : FormatSpecifier) (n : nat) (topic : pystr)
    (acc : list (list Z)) (row rest : list Z) (s : state) :
  row_in_range n f row -> rows_so_far topic acc (topical_data s) ->
  decode_row topic (Z.of_nat n) (name f) (row_bytes f row ++ rest) s =
    (Ok rest, set_topical_data [(topic, VRows (acc ++ [row]))] s).
Proof.
  intros (Hf & Hn & Hr) Ha.
  pose proof (row_bytes_length f row Hf) as Hlen. rewrite Hn in Hlen.
  destruct f; try discriminate; unfold width in Hlen;
    unfold decode_row, name; cbn [String.eqb Ascii.eqb Bool.eqb].
  - destruct (slice_prefix (row_bytes U8 row) rest (Z.of_nat n)) as [-> ->]; [lia|].
    rewrite (next_row topic acc _ rest s Ha). unfold row_bytes.
    rewrite (map_back _ _ row
               (fun v (H : representable U8 v /\ off_the_slips U8 v) =>
                  unsigned8 v (proj1 H) (proj2 H)) Hr).
    reflexivity.
  - destruct (slice_prefix (row_bytes S8 row) rest (Z.of_nat n)) as [-> ->]; [lia|].
    rewrite (next_row topic acc _ rest s Ha). unfold row_bytes.
    rewrite map_map.
    rewrite (map_back _ _ row
               (fun v (H : representable S8 v /\ off_the_slips S8 v) =>
                  sign8 v (proj1 H) (proj2 H)) Hr).
    reflexivity.
  - destruct (slice_prefix (row_bytes U16 row) rest (Z.of_nat n * 2)) as [-> ->]; [lia|].
    unfold row_bytes.
    etransitivity;
      [apply (next_row_of topic acc _ (fun r => r) _ rest s Ha (words16_of_row _))|].
    cbv beta. rewrite map_map.
    rewrite (map_back _ _ row
               (fun v (H : representable U16 v /\ off_the_slips U16 v) =>
                  unsigned16 v (proj1 H)) Hr).
    reflexivity.
  - destruct (slice_prefix (row_bytes S16 row) rest (Z.of_nat n * 2)) as [-> ->]; [lia|].
    unfold row_bytes.
    etransitivity;
      [apply (next_row_of topic acc _
                (map (fun e => if e >? 32767 then e - 65536 else e)) _ rest s Ha
                (words16_of_row _))|].
    rewrite !map_map.
    rewrite (map_back _ _ row
               (fun v (H : representable S16 v /\ off_the_slips S16 v) =>
                  sign16 v (proj1 H)) Hr).
    reflexivity.
  - destruct (slice_prefix (row_bytes U32 row) rest (Z.of_nat n * 4)) as [-> ->]; [lia|].
    unfold row_bytes.
    etransitivity;
      [apply (next_row_of topic acc _ (fun r => r) _ rest s Ha (words32_of_row _))|].
    cbv beta. rewrite map_map.
    rewrite (map_back _ _ row
               (fun v (H : representable U32 v /\ off_the_slips U32 v) =>
                  unsigned32 v (proj1 H)) Hr).
    reflexivity.
  - destruct (slice_prefix (row_bytes S32 row) rest (Z.of_nat n * 4)) as [-> ->]; [lia|].
    unfold row_bytes.
    etransitivity;
      [apply (next_row_of topic acc _
                (map (fun e => if e >? 2147483648 then e - 4294967296 else e))
                _ rest s Ha (words32_of_row _))|].
    rewrite !map_map.
    rewrite (map_back _ _ row
               (fun v (H : representable S32 v /\ off_the_slips S32 v) =>
                  sign32 v (proj1 H) (proj2 H)) Hr).
    reflexivity.
Qed.

Lemma decode_rows_numeric_rows (n : nat) (topic : pystr)
    (fs : list FormatSpecifier) (rows : list (list Z)) :
  Forall2 (row_in_range n) fs rows ->
  forall (acc : list (list Z)) (rest : list Z) (s : state),
  rows_so_far topic acc (topical_data s) ->
  decode_rows topic (Z.of_nat n) (map name fs)
    (concat (zip_with row_bytes fs rows) ++ rest) s =
    (Ok tt,
     match fs with
     | [] => s
     | _ :: _ => set_topical_data [(topic, VRows (acc ++ rows))] s
     end).
Proof.
  induction 1 as [|f row fs rows Hrow H2 IH]; intros acc rest s Ha.
  - reflexivity.
  - cbn [map zip_with concat decode_rows]. rewrite <- app_assoc.
    unfold bind.
    rewrite (decode_row_numeric_row f n topic acc row _ s Hrow Ha).
    rewrite (IH (acc ++ [row]) rest) by (right; reflexivity).
    destruct fs as [|g fs].
    + inversion H2; subst. reflexivity.
    + rewrite <- app_assoc. reflexivity.
Qed.

Lemma numeric_frame_decodes (topic : pystr) (fs : list FormatSpecifier)
    (rows : list (list Z)) (n : nat) (s : state) :
  topic_text topic -> fs <> [] -> Forall2 (row_in_range n) fs rows ->
  Z.of_nat n < 65536 -> topical_data s = [] ->
  decode_frame (numeric_frame topic fs rows n) s =
    (Ok (topic, Z.of_nat (length rows), Z.of_nat n, map name fs),
     set_topical_data [(topic, VRows rows)] s).
Proof.
  intros Ht Hne H2 Hn He. unfold decode_frame.
  rewrite (bind_lift_ok _ _ _ _
             (decode_header_numeric_frame topic fs rows n Ht Hne
                (Forall2_length _ _ _ H2) Hn)).
  cbv beta iota.
  pose proof (decode_rows_numeric_rows n topic fs rows H2 [] [] s
                (or_introl (conj eq_refl He))) as Hd.
  rewrite app_nil_r in Hd. unfold bind. rewrite Hd.
  destruct fs; [contradiction|]. reflexivity.
Qed.

Lemma process_decoded (msg : list Z) (h : pystr * Z * Z * list string)
    (topic : pystr) (v : value) (s : state) :
  decode_frame msg s = (Ok h, set_topical_data [(topic, v)] s) ->
  process_msg msg s =
    (Ok tt,
     mkState [] (subscribers s) (frame s) (run_thread s)
       (events s ++ calls (default [] (subscribers s !! topic)) [(topic, v)])).
Proof.
  intros H. unfold process_msg, bind. rewrite H.
  rewrite (dispatch_single topic v (set_topical_data [(topic, v)] s) eq_refl).
  reflexivity.
Qed.

(** X1. A frame [publish] builds from rows of integers is decoded by the
    loop to the same topic, the same specifier names and the same rows:
    for every non-empty list of numeric specifiers, one row of [n] elements
    per specifier, every element within its specifier's range and off the
    two slips (a zero under U8 or S8, the least S32 value), [n] below 65536
    and an ASCII topic without NUL, decoding the published frame on an empty
    store leaves exactly [topic -> rows] in the store. *)
Theorem numeric_rows_roundtrip (topic : pystr) (fs : list FormatSpecifier)
    (rows : list (list Z)) (n : nat) (s s1 : state) :
  topic_text topic -> fs <> [] -> Forall2 (row_in_range n) fs rows ->
  Z.of_nat n < 65536 -> topical_data s1 = [] ->
  exists msg s',
    publish topic (map (map PInt) rows) (map name fs) s = (Ok msg, s') /\
    decode_frame msg s1 =
      (Ok (topic, Z.of_nat (length rows), Z.of_nat n, map name fs),
       set_topical_data [(topic, VRows rows)] s1).
Proof.
  intros Ht Hne H2 Hn He. eexists _, _. split.
  - apply (publish_numeric_rows topic fs rows n s
             (topic_text_ascii _ Ht) (row_in_range_shape _ _ _ H2) Hne).
  - apply numeric_frame_decodes; assumption.
Qed.

Lemma numeric_rows_roundtrip_witness :
  exists msg s',
    publish topic_t (map (map PInt) [[1; 255]; [-1; 300]; [0; -70000]])
      (map name [U8; S16; S32]) idle = (Ok msg, s') /\
    decode_frame msg idle =
      (Ok (topic_t, 3, 2, map name [U8; S16; S32]),
       set_topical_data [(topic_t, VRows [[1; 255]; [-1; 300]; [0; -70000]])]
         idle).
Proof.
  apply (numeric_rows_roundtrip topic_t [U8; S16; S32]
           [[1; 255]; [-1; 300]; [0; -70000]] 2 idle idle).
  - repeat constructor; lia.
  - discriminate.
  - repeat (constructor; [repeat split; try reflexivity;
                          repeat constructor; simpl; lia|]).
    constructor.
  - simpl. lia.
  - reflexivity.
Defined.

(** X2. Under the same conditions the frame is queued once for
    transmission, and when a receiver processes it every callback
    registered for the topic is called once, in registration order, while
    the store holds the published rows; afterwards the store is empty and
    registry, transport and run flag are unchanged. *)
Theorem published_rows_reach_subscribers (topic : pystr)
    (fs : list FormatSpecifier) (rows : list (list Z)) (n : nat)
    (s s1 : state) :
  topic_text topic -> fs <> [] -> Forall2 (row_in_range n) fs rows ->
  Z.of_nat n < 65536 -> topical_data s1 = [] ->
  exists msg s',
    publish topic (map (map PInt) rows) (map name fs) s = (Ok msg, s') /\
    tx_queue (frame s') = tx_queue (frame s) ++ [msg] /\
    process_msg msg s1 =
      (Ok tt,
       mkState [] (subscribers s1) (frame s1) (run_thread s1)
         (events s1 ++ calls (default [] (subscribers s1 !! topic))
                             [(topic, VRows rows)])).
Proof.
  intros Ht Hne H2 Hn He. eexists _, _. split; [|split].
  - apply (publish_numeric_rows topic fs rows n s
             (topic_text_ascii _ Ht) (row_in_range_shape _ _ _ H2) Hne).
  - reflexivity.
  - eapply process_decoded. apply numeric_frame_decodes; assumption.
Qed.

Lemma published_rows_reach_subscribers_witness :
  exists msg s',
    publish topic_t (map (map PInt) [[1; 65535; 32768]]) (map name [U16]) idle
      = (Ok msg, s') /\
    tx_queue (frame s') = tx_queue (frame idle) ++ [msg] /\
    process_msg msg listening =
      (Ok tt,
       mkState [] (subscribers listening) (frame listening)
         (run_thread listening)
         (events listening
            ++ calls (default [] (subscribers listening !! topic_t))
                     [(topic_t, VRows [[1; 65535; 32768]])])).
Proof.
  apply (published_rows_reach_subscribers topic_t [U16] [[1; 65535; 32768]] 3
           idle listening).
  - repeat constructor; lia.
  - discriminate.
  - repeat (constructor; [repeat split; try reflexivity;
                          repeat constructor; simpl; lia|]).
    constructor.
  - simpl. lia.
  - reflexivity.
Defined.

(** * What publish changes *)

Lemma logs_only_ret {A} (a : A) : logs_only (ret a).
Proof. intros s. exists []. simpl. rewrite app_nil_r. destruct s; reflexivity. Qed.

Lemma logs_only_lift {A} (r : res A) : logs_only (lift r).
Proof. intros s. exists []. simpl. rewrite app_nil_r. destruct s; reflexivity. Qed.

Lemma logs_only_logger_error (line : string) : logs_only (logger_error line).
Proof. intros s. exists [line]. reflexivity. Qed.

Lemma logs_only_bind {A B} (m : M A) (k : A -> M B) :
  logs_only m -> (forall a, logs_only (k a)) -> logs_only (bind m k).
Proof.
  intros Hm Hk s. unfold bind. destruct (Hm s) as [l1 H1].
  destruct (m s) as [[a|e] s1]; simpl in H1.
  - destruct (Hk a s1) as [l2 H2]. exists (l1 ++ l2). rewrite H2, H1.
    cbn [topical_data subscribers frame run_thread events].
    rewrite map_app, app_assoc. reflexivity.
  - exists l1. exact H1.
Qed.

Lemma logs_only_encode_row (i : nat) (e : string) (data : list (list pyval))
    (msg : list Z) : logs_only (encode_row i e data msg).
Proof.
  unfold encode_row.
  repeat match goal with
  | |- context [if ?b then _ else _] => destruct b
  end;
  first [ apply logs_only_lift
        | apply logs_only_bind;
          [apply logs_only_logger_error | intros _; apply logs_only_ret] ].
Qed.

Lemma logs_only_encode_rows (fs : list string) :
  forall (i : nat) (data : list (list pyval)) (msg : list Z),
  logs_only (encode_rows i fs data msg).
Proof.
  induction fs as [|e fs IH]; intros i data msg; cbn [encode_rows].
  - apply logs_only_ret.
  - apply logs_only_bind; [apply logs_only_encode_row | intros a; apply IH].
Qed.

(** X3. Whatever its arguments, [publish] touches neither the store, the
    registry, the run flag nor the receive queue; it may write lines to the
    log; it appends the frame it returns to the transmit queue exactly once
    when it returns, and queues nothing when it raises. *)
Theorem publish_sends_once (topic : pystr) (data : list (list pyval))
    (format_specifier : list string) (s s' : state) (r : res (list Z)) :
  publish topic data format_specifier s = (r, s') ->
  topical_data s' = topical_data s /\
  subscribers s' = subscribers s /\
  run_thread s' = run_thread s /\
  rx_queue (frame s') = rx_queue (frame s) /\
  (exists lines, events s' = events s ++ map LogError lines) /\
  tx_queue (frame s') =
    match r with
    | Ok msg => tx_queue (frame s) ++ [msg]
    | Raise _ => tx_queue (frame s)
    end.
Proof.
  unfold publish. intros H. unfold bind at 1, lift at 1 in H.
  destruct (publish_length data format_specifier) as [len|x];
    [|inversion H; subst; repeat split; auto; exists []; simpl;
      rewrite app_nil_r; reflexivity].
  unfold bind at 1, lift at 1 in H.
  destruct (utf8 topic) as [tb|x];
    [|inversion H; subst; repeat split; auto; exists []; simpl;
      rewrite app_nil_r; reflexivity].
  unfold bind at 1, lift at 1 in H.
  match type of H with
  | context [pack_specifiers ?i ?f ?m] =>
      destruct (pack_specifiers i f m) as [m0|x];
        [|inversion H; subst; repeat split; auto; exists []; simpl;
          rewrite app_nil_r; reflexivity]
  end.
  unfold bind at 1 in H.
  destruct (logs_only_encode_rows format_specifier 0%nat data m0 s) as [lines Hl].
  destruct (encode_rows 0 format_specifier data m0 s) as [[m1|x] s1];
    simpl in Hl; subst s1.
  - unfold bind, modify, ret in H. inversion H; subst.
    simpl. repeat split; eauto.
  - inversion H; subst. simpl. repeat split; eauto.
Qed.

Lemma publish_sends_once_witness :
  topical_data (snd (publish topic_t [[PInt 5]] [name U8] listening))
    = topical_data listening /\
  subscribers (snd (publish topic_t [[PInt 5]] [name U8] listening))
    = subscribers listening /\
  run_thread (snd (publish topic_t [[PInt 5]] [name U8] listening))
    = run_thread listening /\
  rx_queue (frame (snd (publish topic_t [[PInt 5]] [name U8] listening)))
    = rx_queue (frame listening) /\
  (exists lines,
     events (snd (publish topic_t [[PInt 5]] [name U8] listening))
       = events listening ++ map LogError lines) /\
  tx_queue (frame (snd (publish topic_t [[PInt 5]] [name U8] listening)))
    = tx_queue (frame listening) ++ [[116; 0; 1; 1; 0; 2; 5]].
Proof.
  apply (publish_sends_once topic_t [[PInt 5]] [name U8] listening
           (snd (publish topic_t [[PInt 5]] [name U8] listening))
           (Ok [116; 0; 1; 1; 0; 2; 5])).
  vm_compute. reflexivity.
Defined.

(** * What publish refuses *)

Lemma numeric_head_not_string (f : FormatSpecifier) (fs : list FormatSpecifier) :
  numeric f = true ->
  bool_decide (map name (f :: fs) = ["STRING"%string]) = false.
Proof.
  intros Hf. apply bool_decide_eq_false_2. intros E.
  destruct f; try discriminate; destruct fs; discriminate.
Qed.

Lemma encode_row_missing (f : FormatSpecifier) (i : nat)
    (data : list (list pyval)) (msg : list Z) (s : state) :
  numeric f = true -> data !! i = None ->
  encode_row i (name f) data msg s = (Raise IndexError, s).
Proof.
  intros Hf Hi.
  destruct f; try discriminate; unfold encode_row, name, getitem;
    cbn [String.eqb Ascii.eqb Bool.eqb orb]; rewrite Hi; reflexivity.
Qed.

Lemma encode_rows_too_few (fs : list FormatSpecifier) :
  forall (pre rows : list (list Z)) (msg : list Z) (s : state),
  Forall (fun f => numeric f = true) fs ->
  (length rows < length fs)%nat ->
  encode_rows (length pre) (map name fs) (map (map PInt) (pre ++ rows)) msg s =
    (Raise IndexError, s).
Proof.
  induction fs as [|f fs IH]; intros pre rows msg s Hn Hl.
  - simpl in Hl. lia.
  - inversion Hn as [|? ? Hf Hfs]; subst.
    cbn [map encode_rows]. unfold bind.
    destruct rows as [|row rows].
    + rewrite (encode_row_missing f _ _ msg s Hf); [reflexivity|].
      rewrite app_nil_r. apply lookup_ge_None. rewrite length_map. lia.
    + rewrite (encode_row_numeric f (length pre) _ row msg s Hf).
      * replace (pre ++ row :: rows) with ((pre ++ [row]) ++ rows)
          by (rewrite <- app_assoc; reflexivity).
        replace (S (length pre)) with (length (pre ++ [row]))
          by (rewrite length_app; simpl; lia).
        apply IH; [exact Hfs | simpl in Hl; lia].
      * rewrite list_lookup_fmap, lookup_app_r by lia.
        replace (length pre - length pre)%nat with 0%nat by lia. reflexivity.
Qed.

(** X4. [publish] raises [IndexError] and queues nothing when [data] is
    empty (the subscript [data[0]] of lines 87 and 89), and when numeric
    specifiers outnumber the rows of integers in [data] (the subscript
    [data[i]] of lines 118, 122 and 129). *)
Theorem publish_raises_on_missing_rows :
  (forall topic format_specifier s,
     publish topic [] format_specifier s = (Raise IndexError, s)) /\
  (forall topic fs rows s,
     ascii_text topic -> Forall (fun f => numeric f = true) fs ->
     (length rows < length fs)%nat ->
     publish topic (map (map PInt) rows) (map name fs) s =
       (Raise IndexError, s)).
Proof.
  assert (H0 : forall topic format_specifier s,
            publish topic [] format_specifier s = (Raise IndexError, s)).
  { intros topic fmts s. unfold publish, publish_length.
    destruct (bool_decide (fmts = ["STRING"%string])); reflexivity. }
  split; [exact H0|].
  intros topic fs rows s Ht Hn Hl.
  destruct rows as [|row0 rows]; [apply H0|].
  destruct fs as [|f fs]; [simpl in Hl; lia|].
  unfold publish.
  rewrite (bind_lift_ok _ (Z.of_nat (length row0))).
  2:{ unfold publish_length.
      rewrite (numeric_head_not_string f fs) by (inversion Hn; assumption).
      simpl. rewrite length_map. reflexivity. }
  rewrite (bind_lift_ok _ topic) by (apply utf8_ascii; exact Ht).
  rewrite (bind_lift_ok _
             ((topic ++ [0]
                 ++ [Z.of_nat (length (map (map PInt) (row0 :: rows)))]
                 ++ [Z.land (Z.of_nat (length row0)) 255]
                 ++ [Z.shiftr (Z.land (Z.of_nat (length row0)) 65280) 8])
                ++ packed_block_spec (map code (f :: fs)))).
  2:{ rewrite pack_specifiers_spec by reflexivity.
      rewrite codes_of_names. reflexivity. }
  unfold bind.
  rewrite (encode_rows_too_few (f :: fs) [] (row0 :: rows) _ s Hn Hl).
  reflexivity.
Qed.

Lemma publish_raises_on_missing_rows_witness :
  publish topic_t (map (map PInt) [[1; 2]]) (map name [U8; S16]) idle =
    (Raise IndexError, idle).
Proof.
  apply (proj2 publish_raises_on_missing_rows topic_t [U8; S16] [[1; 2]] idle).
  - repeat constructor; lia.
  - repeat constructor.
  - simpl. lia.
Defined.

Lemma name_get_only_key_error (e : string) (x : exn) :
  name_get reversed_specifiers e = Raise x -> x = KeyError.
Proof.
  unfold reversed_specifiers, format_specifiers. cbn [map fst snd name_get].
  repeat match goal with
  | |- context [if ?b then _ else _] => destruct b; [discriminate|]
  end.
  congruence.
Qed.

Lemma name_get_unknown (e : string) :
  (forall f, name f <> e) -> name_get reversed_specifiers e = Raise KeyError.
Proof.
  intros H. unfold reversed_specifiers, format_specifiers.
  cbn [map fst snd name_get].
  repeat match goal with
  | |- context [String.eqb ?n e] =>
      destruct (String.eqb_spec n e) as [E|_];
        [exfalso;
         first [ exact (H NONE E) | exact (H STRING E) | exact (H U8 E)
               | exact (H S8 E) | exact (H U16 E) | exact (H S16 E)
               | exact (H U32 E) | exact (H S32 E) | exact (H FLOAT E) ]|]
  end.
  reflexivity.
Qed.

Lemma codes_of_unknown (format_specifier : list string) (e : string) :
  In e format_specifier -> (forall f, name f <> e) ->
  codes_of format_specifier = Raise KeyError.
Proof.
  intros Hin Hu. induction format_specifier as [|a l IH]; [contradiction|].
  cbn [codes_of].
  destruct (name_get reversed_specifiers a) as [fa|x] eqn:Ea.
  - destruct Hin as [->|Hin].
    + rewrite (name_get_unknown e Hu) in Ea. discriminate.
    + cbn [rbind]. rewrite (IH Hin). reflexivity.
  - rewrite (name_get_only_key_error a x Ea). reflexivity.
Qed.

(** X5. A specifier name that is not one of the nine of the table makes
    [publish] raise [KeyError] at line 105, before any row is encoded:
    nothing is queued and nothing is logged, whenever the length of line
    86-89 and the topic bytes of line 95 can be computed. *)
Theorem publish_unknown_specifier (topic : pystr) (data : list (list pyval))
    (format_specifier : list string) (e : string) (s : state) :
  In e format_specifier -> (forall f, name f <> e) ->
  (exists len, publish_length data format_specifier = Ok len) ->
  (exists topic_bytes, utf8 topic = Ok topic_bytes) ->
  publish topic data format_specifier s = (Raise KeyError, s).
Proof.
  intros Hin Hu [len Hl] [tb Ht]. unfold publish.
  rewrite (bind_lift_ok _ len _ _ Hl), (bind_lift_ok _ _ _ _ Ht).
  unfold bind, lift. rewrite pack_specifiers_spec by reflexivity.
  rewrite (codes_of_unknown format_specifier e Hin Hu). reflexivity.
Qed.

Lemma publish_unknown_specifier_witness :
  publish topic_t [[PInt 1]] ["U8"%string; "U64"%string] idle =
    (Raise KeyError, idle).
Proof.
  apply (publish_unknown_specifier topic_t [[PInt 1]]
           ["U8"%string; "U64"%string] "U64"%string idle).
  - right. left. reflexivity.
  - intros f. destruct f; discriminate.
  - exists 1. reflexivity.
  - exists topic_t. reflexivity.
Defined.

Lemma unsigned_data_string (offset : Z) (row : list pyval) (str : pystr) :
  In (PStr str) row -> unsigned_data offset row = Raise TypeError.
Proof.
  induction row as [|[z|t] row IH]; intros Hin; [contradiction| |reflexivity].
  destruct Hin as [E|Hin]; [discriminate|].
  cbn [unsigned_data]. rewrite (IH Hin). reflexivity.
Qed.

(** X6. A string among the elements of the first row, under a numeric
    first specifier, makes [publish] raise [TypeError] (the comparison
    [x > 0] of lines 118, 122 and 129); nothing is queued. *)
Theorem publish_string_in_numeric_row (topic : pystr) (f : FormatSpecifier)
    (fs : list FormatSpecifier) (row : list pyval) (rows : list (list pyval))
    (str : pystr) (s : state) :
  ascii_text topic -> numeric f = true -> In (PStr str) row ->
  publish topic (row :: rows) (map name (f :: fs)) s = (Raise TypeError, s).
Proof.
  intros Ht Hf Hin. unfold publish.
  rewrite (bind_lift_ok _ (Z.of_nat (length row))).
  2:{ unfold publish_length. rewrite (numeric_head_not_string f fs Hf).
      reflexivity. }
  rewrite (bind_lift_ok _ topic) by (apply utf8_ascii; exact Ht).
  unfold bind at 1, lift at 1. rewrite pack_specifiers_spec by reflexivity.
  rewrite codes_of_names. cbn [rbind].
  cbn [map encode_rows]. unfold bind.
  assert (E : forall msg, encode_row 0 (name f) (row :: rows) msg s =
                          (Raise TypeError, s)).
  { intros msg. destruct f; try discriminate; unfold encode_row, name, getitem;
      cbn [String.eqb Ascii.eqb Bool.eqb orb]; simpl lookup; cbn [rbind];
      rewrite (unsigned_data_string _ row str Hin); reflexivity. }
  rewrite E. reflexivity.
Qed.

Lemma publish_string_in_numeric_row_witness :
  publish topic_t [[PInt 1; PStr [97]]] (map name [U16]) idle =
    (Raise TypeError, idle).
Proof.
  apply (publish_string_in_numeric_row topic_t U16 [] [PInt 1; PStr [97]] []
           [97] idle).
  - repeat constructor; lia.
  - reflexivity.
  - right. left. reflexivity.
Defined.

(** * What a decoded header looks like *)

Lemma find_zero_split (msg : list Z) :
  forall i : nat,
  (exists pre tail, msg = pre ++ 0 :: tail /\ Forall (fun b => b <> 0) pre /\
                    find_zero i msg = (i + length pre)%nat) \/
  (Forall (fun b => b <> 0) msg /\ find_zero i msg = 0%nat).
Proof.
  induction msg as [|b msg IH]; intros i.
  - right. split; [constructor | reflexivity].
  - cbn [find_zero]. destruct (Z.eqb_spec b 0) as [->|Hb].
    + left. exists [], msg. repeat split; [constructor | simpl; lia].
    + destruct (IH (S i)) as [(pre & tail & -> & Hp & Hz) | [Hm Hz]].
      * left. exists (b :: pre), tail. repeat split.
        -- constructor; assumption.
        -- rewrite Hz. simpl. lia.
      * right. split; [constructor; assumption | exact Hz].
Qed.

Lemma join_chr_ok (l : list Z) (t : pystr) : join_chr l = Ok t -> t = l.
Proof.
  revert t. induction l as [|c l IH]; intros t H.
  - inversion H. reflexivity.
  - cbn [join_chr] in H. unfold chr in H.
    destruct ((0 <=? c) && (c <? 1114112))%bool; [|discriminate].
    cbn [rbind] in H. destruct (join_chr l) as [xs|]; [|discriminate].
    inversion H. rewrite (IH xs eq_refl). reflexivity.
Qed.

Lemma table_get_name (k : Z) (e : string) :
  table_get format_specifiers k = Ok e -> exists f, e = name f /\ code f = k.
Proof.
  unfold format_specifiers. cbn [table_get].
  repeat match goal with
  | |- context [Z.eqb ?c k] => destruct (Z.eqb_spec c k) as [<-|_]
  end; intros H; inversion H;
  first [ by exists NONE | by exists STRING | by exists U8 | by exists S8
        | by exists U16 | by exists S16 | by exists U32 | by exists S32
        | by exists FLOAT ].
Qed.

Lemma table_get_unknown (k : Z) :
  k < 0 \/ 8 < k -> table_get format_specifiers k = Raise KeyError.
Proof.
  intros Hk. unfold format_specifiers. cbn [table_get].
  repeat match goal with
  | |- context [Z.eqb ?c k] => destruct (Z.eqb_spec c k) as [E|_]; [lia|]
  end.
  reflexivity.
Qed.

Lemma read_specifiers_shape (msg : list Z) :
  forall (i dim : Z) (acc fs : list string) (rest : list Z),
  read_specifiers i dim acc msg = Ok (fs, rest) ->
  i < dim /\
  Z.of_nat (length fs) = Z.of_nat (length acc) + (dim - i) /\
  (Forall known_name acc -> Forall known_name fs) /\
  exists used, msg = used ++ rest /\
               Z.of_nat (length used) = (dim - i + 1) / 2.
Proof.
  induction msg as [|fs0 msg IH]; intros i dim acc fs rest H; [discriminate|].
  cbn [read_specifiers] in H.
  destruct (table_get format_specifiers (Z.land fs0 15)) as [n0|] eqn:E0;
    [|discriminate].
  cbn [rbind] in H. destruct (table_get_name _ _ E0) as (f0 & -> & _).
  destruct (Z.eqb_spec (i + 1) dim) as [Hd|Hd].
  - inversion H; subst. repeat split.
    + lia.
    + rewrite length_app. simpl. lia.
    + intros Ha. apply Forall_app. split; [exact Ha|].
      constructor; [by exists f0 | constructor].
    + exists [fs0]. split; [reflexivity|].
      replace (i + 1 - i + 1) with 2 by lia. reflexivity.
  - destruct (table_get format_specifiers (Z.shiftr (Z.land fs0 240) 4))
      as [n1|] eqn:E1; [|discriminate].
    cbn [rbind] in H. destruct (table_get_name _ _ E1) as (f1 & -> & _).
    destruct (Z.eqb_spec (i + 2) dim) as [Hd2|Hd2].
    + inversion H; subst. repeat split.
      * lia.
      * rewrite !length_app. simpl. lia.
      * intros Ha. apply Forall_app. split.
        -- apply Forall_app. split; [exact Ha|].
           constructor; [by exists f0 | constructor].
        -- constructor; [by exists f1 | constructor].
      * exists [fs0]. split; [reflexivity|].
        replace (i + 2 - i + 1) with 3 by lia. reflexivity.
    + destruct (IH _ _ _ _ _ H) as (Hi & Hl & Hk & used & -> & Hu).
      repeat split.
      * lia.
      * rewrite Hl, !length_app. simpl. lia.
      * intros Ha. apply Hk. apply Forall_app. split.
        -- apply Forall_app. split; [exact Ha|].
           constructor; [by exists f0 | constructor].
        -- constructor; [by exists f1 | constructor].
      * exists (fs0 :: used). split; [reflexivity|].
        cbn [length]. rewrite Nat2Z.inj_succ, Hu.
        replace (dim - i + 1) with (dim - (i + 2) + 1 + 1 * 2) by lia.
        rewrite Z.div_add by lia. lia.
Qed.

Lemma decode_header_layout (msg : list Z) (topic : pystr)
    (dim len : Z) (fs : list string) (rest : list Z) :
  decode_header msg = Ok (topic, dim, len, fs, rest) ->
  1 <= dim /\
  Z.of_nat (length fs) = dim /\
  Forall known_name fs /\
  exists before block,
    msg = before ++ block ++ rest /\
    Z.of_nat (length block) = (dim + 1) / 2.
Proof.
  unfold decode_header. intros H. cbv zeta in H.
  destruct (join_chr (take (find_zero 0 msg) msg)) as [t|]; [|discriminate].
  cbn [rbind] in H.
  pose proof (take_drop (S (find_zero 0 msg)) msg) as Hsplit.
  destruct (drop (S (find_zero 0 msg)) msg) as [|d [|lo [|hi m3]]];
    try discriminate.
  cbn [pop0 rbind] in H.
  destruct (read_specifiers 0 d [] m3) as [[fs' m4]|] eqn:Er; [|discriminate].
  cbn [rbind] in H. inversion H; subst.
  destruct (read_specifiers_shape _ _ _ _ _ _ Er)
    as (Hi & Hl & Hk & used & -> & Hu).
  repeat split.
  - lia.
  - rewrite Hl. simpl. lia.
  - apply Hk. constructor.
  - exists (take (S (find_zero 0 msg)) msg ++ [dim; lo; hi]), used.
    split.
    + rewrite <- Hsplit at 1. rewrite <- !app_assoc. reflexivity.
    + rewrite Hu. f_equal. lia.
Qed.

(** X7. The topic of a decoded header never contains the code point 0:
    it is the part of the frame before the first zero byte, or the empty
    string when the frame has no zero byte at all. *)
Theorem decoded_topic_is_nul_free_prefix (msg : list Z) (topic : pystr)
    (dim len : Z) (fs : list string) (rest : list Z) :
  decode_header msg = Ok (topic, dim, len, fs, rest) ->
  Forall (fun c => c <> 0) topic /\
  ((exists tail, msg = topic ++ 0 :: tail) \/
   (Forall (fun b => b <> 0) msg /\ topic = [])).
Proof.
  unfold decode_header. intros H. cbv zeta in H.
  destruct (join_chr (take (find_zero 0 msg) msg)) as [t|] eqn:Ej;
    [|discriminate].
  apply join_chr_ok in Ej. cbn [rbind] in H.
  assert (Ht : t = topic).
  { destruct (pop0 (drop (S (find_zero 0 msg)) msg)) as [[d m1]|]; [|discriminate].
    cbn [rbind] in H.
    destruct (pop0 m1) as [[lo m2]|]; [|discriminate]. cbn [rbind] in H.
    destruct (pop0 m2) as [[hi m3]|]; [|discriminate]. cbn [rbind] in H.
    destruct (read_specifiers 0 d [] m3) as [[fs' m4]|]; [|discriminate].
    cbn [rbind] in H. congruence. }
  rewrite Ht in Ej. clear H Ht t.
  destruct (find_zero_split msg 0) as [(pre & tail & -> & Hp & Hz) | [Hm Hz]].
  - rewrite Hz in Ej. simpl Nat.add in Ej. rewrite take_app_length in Ej.
    subst pre. split; [exact Hp|]. left. eauto.
  - rewrite Hz in Ej. simpl in Ej. subst topic.
    split; [constructor|]. right. auto.
Qed.

Lemma decoded_topic_is_nul_free_prefix_witness :
  Forall (fun c => c <> 0) topic_t /\
  ((exists tail, good_frame = topic_t ++ 0 :: tail) \/
   (Forall (fun b => b <> 0) good_frame /\ topic_t = [])).
Proof.
  apply (decoded_topic_is_nul_free_prefix good_frame topic_t 1 2
           ["STRING"%string] [104; 105]).
  reflexivity.
Defined.



(** * Frames the decoder refuses *)

Lemma join_chr_bytes (l : list Z) :
  Forall (fun c => 0 <= c < 1114112) l -> join_chr l = Ok l.
Proof.
  induction 1 as [|c l Hc _ IH]; [reflexivity|].
  cbn [join_chr]. unfold chr.
  destruct (Z.leb_spec 0 c); [|lia]. destruct (Z.ltb_spec c 1114112); [|lia].
  cbn [andb rbind]. rewrite IH. reflexivity.
Qed.

Lemma bytes_are_chars (l : list Z) :
  Forall byte l -> Forall (fun c => 0 <= c < 1114112) l.
Proof.
  intros H. eapply Forall_impl; [exact H|]. unfold byte. intros c Hc. lia.
Qed.

(** X9. A frame of at most four bytes makes the loop raise [IndexError]
    (one of the [pop(0)] of lines 160-167): the store, the registry and the
    log are left as they were and no callback is called. *)
Theorem short_frame_raises (msg : list Z) (s : state) :
  Forall byte msg -> (length msg <= 4)%nat ->
  process_msg msg s = (Raise IndexError, s).
Proof.
  intros Hb Hl. unfold process_msg, decode_frame, decode_header.
  rewrite (join_chr_bytes (take (find_zero 0 msg) msg))
    by (apply bytes_are_chars, Forall_take; exact Hb).
  assert (Hd : (length (drop (S (find_zero 0 msg)) msg) <= 3)%nat)
    by (rewrite length_drop; lia).
  destruct (drop (S (find_zero 0 msg)) msg) as [|a [|b [|c [|d l]]]];
    try reflexivity.
  simpl in Hd. lia.
Qed.

Lemma short_frame_raises_witness :
  process_msg [116; 0; 1; 1] listening = (Raise IndexError, listening).
Proof.
  apply (short_frame_raises [116; 0; 1; 1] listening).
  - repeat constructor; unfold byte; lia.
  - simpl. lia.
Defined.

(** X10. A first specifier byte whose low nibble is above 8, or whose high
    nibble is above 8 when [dim] is not 1, makes the loop raise [KeyError]
    (the table lookups of lines 168 and 174); nothing is stored and no
    callback is called. *)
Theorem unknown_nibble_raises (topic : pystr) (dim lo hi b : Z)
    (rest : list Z) (s : state) :
  topic_text topic ->
  8 < Z.land b 15 \/ (dim <> 1 /\ 8 < Z.shiftr (Z.land b 240) 4) ->
  process_msg (topic ++ [0; dim; lo; hi; b] ++ rest) s = (Raise KeyError, s).
Proof.
  intros Ht Hb. unfold process_msg, decode_frame.
  change (topic ++ [0; dim; lo; hi; b] ++ rest)
    with (topic ++ 0 :: [dim; lo; hi; b] ++ rest).
  rewrite (decode_header_topic topic _ Ht).
  cbn [app pop0 rbind read_specifiers].
  destruct (table_get format_specifiers (Z.land b 15)) as [n0|x] eqn:E0.
  - destruct Hb as [Hb | [Hd Hb]].
    + rewrite table_get_unknown in E0 by lia. discriminate.
    + cbn [rbind]. destruct (Z.eqb_spec (0 + 1) dim) as [E|_]; [lia|].
      rewrite table_get_unknown by lia. reflexivity.
  - destruct (Z.le_gt_cases (Z.land b 15) 8) as [Hle|Hgt].
    + assert (Hnn : 0 <= Z.land b 15) by (apply Z.land_nonneg; lia).
      exfalso. revert E0. unfold format_specifiers. cbn [table_get].
      repeat match goal with
      | |- context [Z.eqb ?c ?k] => destruct (Z.eqb_spec c k); [discriminate|]
      end.
      lia.
    + rewrite table_get_unknown in E0 by lia. inversion E0. reflexivity.
Qed.

Lemma unknown_nibble_raises_witness :
  process_msg (topic_t ++ [0; 1; 1; 0; 9] ++ [5]) listening =
    (Raise KeyError, listening).
Proof.
  apply (unknown_nibble_raises topic_t 1 1 0 9 [5] listening).
  - repeat constructor; lia.
  - left. vm_compute. reflexivity.
Defined.

(** * STRING frames *)

Lemma dict_get_set (k : pystr) (v : value) (d : store) :
  dict_get k (dict_set k v d) = Some v.
Proof.
  induction d as [|[k' v'] d IH]; cbn [dict_set].
  - apply dict_get_head.
  - destruct (bool_decide (k' = k)) eqn:E.
    + apply dict_get_head.
    + cbn [dict_get]. rewrite E. exact IH.
Qed.

Lemma dict_set_not_empty (k : pystr) (v : value) (d : store) :
  dict_set k v d <> [].
Proof.
  destruct d as [|[k' v'] d]; cbn [dict_set]; [discriminate|].
  destruct (bool_decide (k' = k)); discriminate.
Qed.

(** X11. For a frame with the single specifier STRING the decoder stores
    every byte after the specifier byte as the string of the topic,
    whatever the two length bytes say (line 183 takes the whole rest of the
    message). *)
Theorem string_frame_ignores_length (topic : pystr) (lo hi : Z)
    (payload : list Z) (s : state) :
  topic_text topic -> Forall byte payload ->
  decode_frame (topic ++ [0; 1; lo; hi; code STRING] ++ payload) s =
    (Ok (topic, 1, lo + hi * 256, [name STRING]),
     set_topical_data (dict_set topic (VStr payload) (topical_data s)) s).
Proof.
  intros Ht Hp. unfold decode_frame.
  rewrite (bind_lift_ok _ _ _ _ (decode_header_single STRING topic _ lo hi Ht)).
  cbv beta iota. unfold decode_rows, decode_row, name.
  cbn [String.eqb Ascii.eqb Bool.eqb]. unfold bind, lift.
  rewrite (join_chr_bytes payload (bytes_are_chars _ Hp)). reflexivity.
Qed.

Lemma string_frame_ignores_length_witness :
  decode_frame (topic_t ++ [0; 1; 200; 7; code STRING] ++ [104; 105]) idle =
    (Ok (topic_t, 1, 200 + 7 * 256, [name STRING]),
     set_topical_data (dict_set topic_t (VStr [104; 105]) (topical_data idle))
       idle).
Proof.
  apply (string_frame_ignores_length topic_t 200 7 [104; 105] idle).
  - repeat constructor; lia.
  - repeat constructor; unfold byte; lia.
Defined.

Lemma words16_raises (n : nat) :
  forall l x, (length l <= n)%nat -> words16 l = Raise x -> x = IndexError.
Proof.
  induction n as [|n IH]; intros [|a [|b l]] x Hl H; try discriminate;
    try (inversion H; reflexivity); simpl in Hl; try lia.
  cbn [words16] in H. destruct (words16 l) as [r|y] eqn:E; [discriminate|].
  inversion H; subst. apply (IH l x); [lia | exact E].
Qed.

Lemma words32_raises (n : nat) :
  forall l x, (length l <= n)%nat -> words32 l = Raise x -> x = IndexError.
Proof.
  induction n as [|n IH]; intros [|a [|b [|c [|d l]]]] x Hl H;
    try discriminate; try (inversion H; reflexivity); simpl in Hl; try lia.
  cbn [words32] in H. destruct (words32 l) as [r|y] eqn:E; [discriminate|].
  inversion H; subst. apply (IH l x); [lia | exact E].
Qed.

Lemma row_after_string (topic : pystr) (str : pystr) (d : store)
    (r : res (list Z)) (g : list Z -> list Z) (rest : list Z) (s : state) :
  topical_data s = dict_set topic (VStr str) d ->
  (forall x, r = Raise x -> x = IndexError) ->
  exists e,
    (ensure_rows topic ;;
     do row <- lift r; append_row topic (g row) ;; ret rest)%M s =
      (Raise e, s) /\ (e = AttributeError \/ e = IndexError).
Proof.
  intros Hd Hr.
  assert (Hens : ensure_rows topic s = (Ok tt, s)).
  { unfold ensure_rows, modify.
    pose proof (dict_set_not_empty topic (VStr str) d) as Hne.
    rewrite <- Hd in Hne. destruct (topical_data s); [contradiction|].
    reflexivity. }
  unfold bind at 1. rewrite Hens. unfold bind, lift.
  destruct r as [row|x].
  - unfold append_row. rewrite Hd, dict_get_set. eauto.
  - exists x. split; [reflexivity|]. right. apply Hr. reflexivity.
Qed.

(** X12. A frame whose specifiers start with STRING followed by a numeric
    specifier cannot be decoded: the string is stored for the topic (line
    184) and the numeric row then raises, [AttributeError] from the
    [append] on the stored string or [IndexError] from an incomplete word,
    with the string still in the store. *)
Theorem string_then_numeric_raises (topic : pystr) (len : Z)
    (f : FormatSpecifier) (fs : list string) (msg : list Z) (s : state) :
  numeric f = true -> Forall byte msg ->
  exists e,
    decode_rows topic len (name STRING :: name f :: fs) msg s =
      (Raise e,
       set_topical_data (dict_set topic (VStr msg) (topical_data s)) s) /\
    (e = AttributeError \/ e = IndexError).
Proof.
  intros Hf Hb. cbn [decode_rows]. unfold bind at 1.
  assert (E1 : decode_row topic len (name STRING) msg s =
                 (Ok msg, set_topical_data
                            (dict_set topic (VStr msg) (topical_data s)) s)).
  { unfold decode_row, name. cbn [String.eqb Ascii.eqb Bool.eqb].
    unfold bind, lift. rewrite (join_chr_bytes msg (bytes_are_chars _ Hb)).
    reflexivity. }
  rewrite E1. set (s1 := set_topical_data _ s).
  assert (Hrow : exists e, decode_row topic len (name f) msg s1 = (Raise e, s1)
                           /\ (e = AttributeError \/ e = IndexError)).
  { assert (Hok : forall (l : list Z) x, Ok l = Raise x -> x = IndexError)
      by (intros; discriminate).
    destruct f; try discriminate; unfold decode_row, name;
      cbn [String.eqb Ascii.eqb Bool.eqb].
    - apply (row_after_string topic msg (topical_data s) (Ok (slice_to msg len))
               (fun r => r) _ s1 eq_refl (Hok _)).
    - apply (row_after_string topic msg (topical_data s) (Ok (slice_to msg len))
               (map (fun e => if e >? 127 then e - 256 else e)) _ s1 eq_refl
               (Hok _)).
    - apply (row_after_string topic msg (topical_data s) _ (fun r => r) _ s1
               eq_refl (fun x => words16_raises _ _ x (Nat.le_refl _))).
    - apply (row_after_string topic msg (topical_data s) _
               (map (fun e => if e >? 32767 then e - 65536 else e)) _ s1
               eq_refl (fun x => words16_raises _ _ x (Nat.le_refl _))).
    - apply (row_after_string topic msg (topical_data s) _ (fun r => r) _ s1
               eq_refl (fun x => words32_raises _ _ x (Nat.le_refl _))).
    - apply (row_after_string topic msg (topical_data s) _
               (map (fun e => if e >? 2147483648 then e - 4294967296 else e))
               _ s1 eq_refl (fun x => words32_raises _ _ x (Nat.le_refl _))). }
  destruct Hrow as (e & He & Hc). exists e. split; [|exact Hc].
  unfold bind. rewrite He. reflexivity.
Qed.

Lemma string_then_numeric_raises_witness :
  exists e,
    decode_rows topic_t 1 (name STRING :: name U8 :: []) [104; 105] idle =
      (Raise e,
       set_topical_data
         (dict_set topic_t (VStr [104; 105]) (topical_data idle)) idle) /\
    (e = AttributeError \/ e = IndexError).
Proof.
  apply (string_then_numeric_raises topic_t 1 U8 [] [104; 105] idle).
  - reflexivity.
  - repeat constructor; unfold byte; lia.
Defined.

(** * The values a numeric frame decodes to *)

Lemma slices_of_bytes (msg : list Z) (k : Z) :
  Forall byte msg -> Forall byte (slice_to msg k) /\ Forall byte (slice_from msg k).
Proof.
  intros H. unfold slice_to, slice_from.
  destruct (0 <=? k); split; auto using Forall_take, Forall_drop.
Qed.

Lemma words16_range (n : nat) :
  forall l row, (length l <= n)%nat -> Forall byte l -> words16 l = Ok row ->
  Forall (fun v => 0 <= v <= 65535) row.
Proof.
  induction n as [|n IH]; intros [|a [|b l]] row Hl Hb H; try discriminate;
    try (inversion H; constructor); simpl in Hl; try lia.
  cbn [words16] in H. destruct (words16 l) as [r|] eqn:E; [|discriminate].
  inversion H; subst.
  inversion Hb as [|? ? Ha Hb1]; subst. inversion Hb1 as [|? ? Hb2 Hb3]; subst.
  constructor; [unfold byte in *; lia|].
  apply (IH l r); [lia | assumption | exact E].
Qed.

Lemma words32_range (n : nat) :
  forall l row, (length l <= n)%nat -> Forall byte l -> words32 l = Ok row ->
  Forall (fun v => 0 <= v <= 4294967295) row.
Proof.
  induction n as [|n IH]; intros [|a [|b [|c [|d l]]]] row Hl Hb H;
    try discriminate; try (inversion H; constructor); simpl in Hl; try lia.
  cbn [words32] in H. destruct (words32 l) as [r|] eqn:E; [|discriminate].
  inversion H; subst.
  inversion Hb as [|? ? Ha Hb1]; subst. inversion Hb1 as [|? ? Hb2 Hb3]; subst.
  inversion Hb3 as [|? ? Hc Hb4]; subst. inversion Hb4 as [|? ? Hd Hb5]; subst.
  constructor; [unfold byte in *; lia|].
  apply (IH l r); [lia | assumption | exact E].
Qed.

Lemma Forall_map_range (P Q : Z -> Prop) (h : Z -> Z) (l : list Z) :
  (forall v, P v -> Q (h v)) -> Forall P l -> Forall Q (map h l).
Proof.
  intros Hh H. induction H; constructor; auto.
Qed.

Lemma wide_row (topic : pystr) (acc : list (list Z)) (r : res (list Z))
    (g : list Z -> list Z) (rest rest' : list Z) (s s' : state) :
  rows_so_far topic acc (topical_data s) ->
  (ensure_rows topic ;;
   do row <- lift r; append_row topic (g row) ;; ret rest)%M s = (Ok rest', s') ->
  exists row0, r = Ok row0 /\ rest' = rest /\
    s' = set_topical_data [(topic, VRows (acc ++ [g row0]))] s.
Proof.
  intros Ha H. destruct r as [row0|x].
  - rewrite (next_row_of topic acc (Ok row0) g row0 rest s Ha eq_refl) in H.
    inversion H. eauto.
  - unfold bind at 1 in H.
    change (ensure_rows topic s) with (Ok tt, snd (ensure_rows topic s)) in H.
    unfold bind, lift in H. discriminate.
Qed.

Lemma decode_row_in_range (f : FormatSpecifier) (topic : pystr) (len : Z)
    (acc : list (list Z)) (msg rest : list Z) (s s' : state) :
  numeric f = true -> Forall byte msg ->
  rows_so_far topic acc (topical_data s) ->
  decode_row topic len (name f) msg s = (Ok rest, s') ->
  exists row,
    s' = set_topical_data [(topic, VRows (acc ++ [row]))] s /\
    Forall (decoded_range f) row /\ Forall byte rest.
Proof.
  intros Hf Hb Ha H.
  destruct (slices_of_bytes msg len Hb) as [Ht1 Hd1].
  destruct (slices_of_bytes msg (len * 2) Hb) as [Ht2 Hd2].
  destruct (slices_of_bytes msg (len * 4) Hb) as [Ht4 Hd4].
  destruct f; try discriminate; unfold decode_row, name in H;
    cbn [String.eqb Ascii.eqb Bool.eqb] in H.
  - rewrite (next_row topic acc _ _ s Ha) in H. inversion H; subst.
    eexists. split; [reflexivity|]. split; [|exact Hd1].
    eapply Forall_impl; [exact Ht1|]. unfold byte. simpl. intros; lia.
  - rewrite (next_row topic acc _ _ s Ha) in H. inversion H; subst.
    eexists. split; [reflexivity|]. split; [|exact Hd1].
    apply (Forall_map_range byte); [|exact Ht1].
    intros v Hv. unfold byte in Hv. simpl. rewrite gtb_case. split_sign; lia.
  - destruct (wide_row topic acc _ (fun r => r) _ _ s s' Ha H)
      as (row & Hw & -> & ->).
    eexists. split; [reflexivity|]. split; [|exact Hd2].
    apply (words16_range _ _ row (Nat.le_refl _) Ht2 Hw).
  - destruct (wide_row topic acc _
                (map (fun e => if e >? 32767 then e - 65536 else e))
                _ _ s s' Ha H) as (row & Hw & -> & ->).
    eexists. split; [reflexivity|]. split; [|exact Hd2].
    apply (Forall_map_range (fun v => 0 <= v <= 65535));
      [|apply (words16_range _ _ row (Nat.le_refl _) Ht2 Hw)].
    intros v Hv. simpl. rewrite gtb_case. split_sign; lia.
  - destruct (wide_row topic acc _ (fun r => r) _ _ s s' Ha H)
      as (row & Hw & -> & ->).
    eexists. split; [reflexivity|]. split; [|exact Hd4].
    apply (words32_range _ _ row (Nat.le_refl _) Ht4 Hw).
  - destruct (wide_row topic acc _
                (map (fun e => if e >? 2147483648 then e - 4294967296 else e))
                _ _ s s' Ha H) as (row & Hw & -> & ->).
    eexists. split; [reflexivity|]. split; [|exact Hd4].
    apply (Forall_map_range (fun v => 0 <= v <= 4294967295));
      [|apply (words32_range _ _ row (Nat.le_refl _) Ht4 Hw)].
    intros v Hv. simpl. rewrite gtb_case. split_sign; lia.
Qed.

Lemma decode_rows_in_range (topic : pystr) (len : Z) (fs : list FormatSpecifier) :
  forall (acc : list (list Z)) (msg : list Z) (s s' : state),
  Forall (fun f => numeric f = true) fs -> Forall byte msg ->
  rows_so_far topic acc (topical_data s) ->
  decode_rows topic len (map name fs) msg s = (Ok tt, s') ->
  exists rows,
    Forall2 (fun f row => Forall (decoded_range f) row) fs rows /\
    s' = match fs with
         | [] => s
         | _ :: _ => set_topical_data [(topic, VRows (acc ++ rows))] s
         end.
Proof.
  induction fs as [|f fs IH]; intros acc msg s s' Hn Hb Ha H.
  - inversion H; subst. exists []. split; [constructor | reflexivity].
  - inversion Hn as [|? ? Hf Hfs]; subst.
    cbn [map decode_rows] in H. unfold bind in H.
    destruct (decode_row topic len (name f) msg s) as [[rest|x] s1] eqn:E;
      [|discriminate].
    destruct (decode_row_in_range f topic len acc msg rest s s1 Hf Hb Ha E)
      as (row & -> & Hr & Hrest).
    assert (Ha1 : rows_so_far topic (acc ++ [row])
                    (topical_data
                       (set_topical_data [(topic, VRows (acc ++ [row]))] s)))
      by (right; reflexivity).
    destruct (IH (acc ++ [row]) rest _ s' Hfs Hrest Ha1 H) as (rows & H2 & ->).
    exists (row :: rows). split; [constructor; assumption|].
    destruct fs as [|g fs].
    + inversion H2; subst. reflexivity.
    + rewrite <- app_assoc. reflexivity.
Qed.

(** X13. Whatever bytes a frame of numeric specifiers carries, when it
    decodes on an empty store the store holds one row per specifier ([dim]
    rows) and every decoded value lies in the range of its specifier: 0..255
    for U8, -128..127 for S8, 0..65535 for U16, -32768..32767 for S16,
    0..4294967295 for U32, and -2147483647..2147483648 for S32 (the
    comparison of line 272). *)
Theorem decoded_values_in_range (msg : list Z) (topic : pystr) (dim len : Z)
    (fs : list FormatSpecifier) (s s' : state) :
  Forall byte msg -> Forall (fun f => numeric f = true) fs ->
  topical_data s = [] ->
  decode_frame msg s = (Ok (topic, dim, len, map name fs), s') ->
  exists rows,
    s' = set_topical_data [(topic, VRows rows)] s /\
    Z.of_nat (length rows) = dim /\
    Forall2 (fun f row => Forall (decoded_range f) row) fs rows.
Proof.
  intros Hb Hn He H. unfold decode_frame in H. unfold bind at 1, lift at 1 in H.
  destruct (decode_header msg) as [[[[[topic' dim'] len'] fs'] rest]|] eqn:Eh;
    [|discriminate].
  destruct (decode_header_layout _ _ _ _ _ _ Eh)
    as (Hd & Hl & _ & before & block & Hm & _).
  unfold bind in H.
  destruct (decode_rows topic' len' fs' rest s) as [[[]|x] s1] eqn:Er;
    [|discriminate].
  inversion H; subst. clear H.
  assert (Hrest : Forall byte rest).
  { apply Forall_app in Hb as [_ Hb]. apply Forall_app in Hb as [_ Hb].
    exact Hb. }
  destruct (decode_rows_in_range topic len fs [] rest s s' Hn Hrest
              (or_introl (conj eq_refl He)) Er) as (rows & H2 & ->).
  exists rows. rewrite length_map, <- (Forall2_length _ _ _ H2).
  destruct fs as [|f fs]; [simpl in Hd; lia|].
  split; [reflexivity|]. split; [reflexivity | exact H2].
Qed.

Lemma decoded_values_in_range_witness :
  exists rows,
    set_topical_data [(topic_t, VRows [[2147483648; -1]])] idle
      = set_topical_data [(topic_t, VRows rows)] idle /\
    Z.of_nat (length rows) = 1 /\
    Forall2 (fun f row => Forall (decoded_range f) row) [S32] rows.
Proof.
  apply (decoded_values_in_range
           [116; 0; 1; 2; 0; 7; 0; 0; 0; 128; 255; 255; 255; 255]
           topic_t 1 2 [S32] idle).
  - repeat constructor; unfold byte; lia.
  - repeat constructor.
  - reflexivity.
  - vm_compute. reflexivity.
Defined.

(** * The registry under subscribe and unsubscribe *)

Lemma list_remove_first (cb : callback) (l1 l2 : list callback) :
  ~ In cb l1 -> list_remove cb (l1 ++ cb :: l2) = Ok (l1 ++ l2).
Proof.
  induction l1 as [|y l1 IH]; intros Hn; cbn [app list_remove].
  - rewrite Nat.eqb_refl. reflexivity.
  - destruct (Nat.eqb_spec y cb) as [->|_].
    + exfalso. apply Hn. left. reflexivity.
    + rewrite IH by (intros Hin; apply Hn; right; exact Hin). reflexivity.
Qed.

Lemma list_remove_absent (cb : callback) (l : list callback) :
  ~ In cb l -> list_remove cb l = Raise ValueError.
Proof.
  induction l as [|y l IH]; intros Hn; cbn [list_remove]; [reflexivity|].
  destruct (Nat.eqb_spec y cb) as [->|_].
  - exfalso. apply Hn. left. reflexivity.
  - rewrite IH by (intros Hin; apply Hn; right; exact Hin). reflexivity.
Qed.

Lemma list_remove_result (cb : callback) (l l' : list callback) :
  list_remove cb l = Ok l' ->
  exists l1 l2, l = l1 ++ cb :: l2 /\ l' = l1 ++ l2 /\ ~ In cb l1.
Proof.
  revert l'. induction l as [|y l IH]; intros l' H; [discriminate|].
  cbn [list_remove] in H. destruct (Nat.eqb_spec y cb) as [->|Hne].
  - inversion H; subst. exists [], l'. auto.
  - destruct (list_remove cb l) as [r|] eqn:E; [|discriminate].
    inversion H; subst. destruct (IH r eq_refl) as (l1 & l2 & -> & -> & Hn).
    exists (y :: l1), l2. repeat split. intros [E1|Hin]; [congruence | auto].
Qed.

Lemma subscribe_keeps_lists_nonempty (topic : pystr) (cb : callback) (s : state) :
  no_empty_list (subscribers s) ->
  no_empty_list (subscribers (snd (subscribe topic cb s))).
Proof.
  intros Hinv t l. unfold subscribe, modify. cbn [snd].
  destruct (subscribers s !! topic) as [l0|]; cbn [subscribers set_subscribers];
    rewrite lookup_insert; case_decide as E.
  - intros Hl. inversion Hl. destruct l0; discriminate.
  - apply Hinv.
  - intros Hl. inversion Hl. discriminate.
  - apply Hinv.
Qed.

Lemma unsubscribe_keeps_lists_nonempty (topic : pystr) (cb : callback) (s : state) :
  no_empty_list (subscribers s) ->
  no_empty_list (subscribers (snd (unsubscribe topic cb s))).
Proof.
  intros Hinv t l. unfold unsubscribe.
  destruct (subscribers s !! topic) as [l0|]; [|apply Hinv].
  destruct (match l0 with [] => Ok l0 | _ :: _ => list_remove cb l0 end)
    as [l'|x]; [|apply Hinv].
  destruct (Z.eqb_spec (Z.of_nat (length l')) 0) as [E|E];
    cbn [snd subscribers set_subscribers].
  - rewrite lookup_delete. case_decide; [discriminate | apply Hinv].
  - rewrite lookup_insert. case_decide; [|apply Hinv].
    intros Hl. inversion Hl; subst. destruct l; [simpl in E; lia | discriminate].
Qed.

(** X14. No sequence of [subscribe] and [unsubscribe] calls, raising or
    not, leaves a topic registered with an empty list of callbacks, when
    none was registered so before. *)
Theorem registry_never_holds_an_empty_list (cs : list registry_call) (s : state) :
  no_empty_list (subscribers s) ->
  no_empty_list (subscribers (after_calls cs s)).
Proof.
  revert s. induction cs as [|[topic cb|topic cb] cs IH]; intros s H;
    cbn [after_calls]; [exact H| |]; apply IH.
  - apply subscribe_keeps_lists_nonempty. exact H.
  - apply unsubscribe_keeps_lists_nonempty. exact H.
Qed.

Lemma registry_never_holds_an_empty_list_witness :
  no_empty_list
    (subscribers
       (after_calls [Subscribe topic_t 1%nat; Subscribe topic_t 2%nat;
                     Unsubscribe topic_t 1%nat; Unsubscribe topic_t 2%nat;
                     Unsubscribe topic_t 2%nat] idle)).
Proof.
  apply (registry_never_holds_an_empty_list
           [Subscribe topic_t 1%nat; Subscribe topic_t 2%nat;
            Unsubscribe topic_t 1%nat; Unsubscribe topic_t 2%nat;
            Unsubscribe topic_t 2%nat] idle).
  intros t l H. simpl in H. rewrite lookup_empty in H. discriminate.
Defined.

(** X15. Subscribing a callback that is not yet registered for the topic
    and unsubscribing it again restores the registry exactly, the absence
    of the topic included. *)
Theorem subscribe_then_unsubscribe (topic : pystr) (cb : callback) (s : state) :
  no_empty_list (subscribers s) ->
  ~ In cb (default [] (subscribers s !! topic)) ->
  (subscribe topic cb ;; unsubscribe topic cb)%M s = (Ok tt, s).
Proof.
  intros Hinv Hn. unfold bind, subscribe, modify, unsubscribe.
  destruct (subscribers s !! topic) as [l|] eqn:E; cbn [default] in Hn;
    cbn [subscribers set_subscribers]; rewrite lookup_insert_eq.
  - pose proof (Hinv topic l E) as Hne.
    replace (match l ++ [cb] with
             | [] => Ok (l ++ [cb])
             | _ :: _ => list_remove cb (l ++ [cb])
             end) with (Ok (A := list callback) l).
    2:{ rewrite (list_remove_first cb l [] Hn), app_nil_r.
        destruct l; [contradiction | reflexivity]. }
    destruct (Z.eqb_spec (Z.of_nat (length l)) 0) as [E0|_].
    + destruct l; [contradiction | simpl in E0; lia].
    + unfold set_subscribers at 1. cbn [topical_data subscribers frame run_thread events].
      rewrite insert_insert_eq, (insert_id _ _ _ E).
      f_equal. clear. destruct s; reflexivity.
  - cbn [app list_remove]. rewrite Nat.eqb_refl. cbn [length Z.of_nat Z.eqb].
    unfold set_subscribers at 1. cbn [topical_data subscribers frame run_thread events].
    rewrite (delete_insert_id _ _ _ E). f_equal. clear. destruct s; reflexivity.
Qed.

Lemma subscribe_then_unsubscribe_witness :
  (subscribe [98] 3%nat ;; unsubscribe [98] 3%nat)%M listening
    = (Ok tt, listening).
Proof.
  apply (subscribe_then_unsubscribe [98] 3%nat listening).
  - intros t l H. unfold listening in H. cbn [subscribers] in H.
    apply lookup_singleton_Some in H as [_ <-]. discriminate.
  - vm_compute. intros H. exact H.
Defined.

(** X16. [unsubscribe] removes the first occurrence of the callback only,
    keeps the order of the others and drops the topic when none is left;
    for a callback that is not in the topic's list it raises [ValueError]
    and leaves the registry as it was. *)
Theorem unsubscribe_first_occurrence (topic : pystr) (cb : callback) (s : state) :
  (forall l1 l2,
     subscribers s !! topic = Some (l1 ++ cb :: l2) -> ~ In cb l1 ->
     unsubscribe topic cb s =
       (Ok tt,
        set_subscribers
          (match l1 ++ l2 with
           | [] => delete topic (subscribers s)
           | _ :: _ => <[topic := l1 ++ l2]> (subscribers s)
           end) s)) /\
  (forall l,
     subscribers s !! topic = Some l -> l <> [] -> ~ In cb l ->
     unsubscribe topic cb s = (Raise ValueError, s)).
Proof.
  split.
  - intros l1 l2 E Hn. unfold unsubscribe. rewrite E.
    replace (match l1 ++ cb :: l2 with
             | [] => Ok (l1 ++ cb :: l2)
             | _ :: _ => list_remove cb (l1 ++ cb :: l2)
             end) with (Ok (A := list callback) (l1 ++ l2)).
    2:{ rewrite (list_remove_first cb l1 l2 Hn). destruct l1; reflexivity. }
    destruct (l1 ++ l2) as [|c l]; reflexivity.
  - intros l E Hne Hn. unfold unsubscribe. rewrite E.
    destruct l as [|c l]; [contradiction|].
    rewrite (list_remove_absent cb (c :: l) Hn). reflexivity.
Qed.

Lemma unsubscribe_first_occurrence_witness :
  unsubscribe topic_t 7%nat
    (set_subscribers {[ topic_t := [8; 7; 9; 7]%nat ]} idle) =
    (Ok tt,
     set_subscribers
       (<[topic_t := [8; 9; 7]%nat]> {[ topic_t := [8; 7; 9; 7]%nat ]}) idle).
Proof.
  assert (Hn : ~ In 7%nat [8%nat]) by (intros [H|[]]; discriminate).
  exact (proj1 (unsubscribe_first_occurrence topic_t 7%nat
                  (set_subscribers {[ topic_t := [8; 7; 9; 7]%nat ]} idle))
           [8%nat] [9; 7]%nat (lookup_singleton_eq _ _) Hn).
Defined.

(** * Dispatch of a store of several topics *)

Lemma dispatch_keys_all (d : store) :
  forall s, topical_data s = d ->
  dispatch_keys (map fst d) s =
    (Ok tt,
     mkState [] (subscribers s) (frame s) (run_thread s)
       (events s ++ dispatch_trace (subscribers s) d)).
Proof.
  induction d as [|[key v] d IH]; intros s Hd.
  - cbn [map dispatch_keys dispatch_trace]. rewrite app_nil_r.
    destruct s; simpl in *; subst; reflexivity.
  - cbn [map fst dispatch_keys dispatch_trace].
    unfold bind at 1. unfold bind at 1.
    assert (Hstep :
      (match subscribers s !! key with
       | Some cbs => (call_all cbs ;; pop_topic key)%M
       | None => pop_topic key
       end) s =
      (Ok tt,
       mkState d (subscribers s) (frame s) (run_thread s)
         (events s ++ calls (default [] (subscribers s !! key)) ((key, v) :: d)))).
    { destruct (subscribers s !! key) as [cbs|]; cbn [default].
      - unfold bind. rewrite call_all_events. unfold pop_topic.
        cbn [topical_data]. rewrite Hd, dict_pop_head. reflexivity.
      - unfold pop_topic. rewrite Hd, dict_pop_head. unfold calls.
        cbn [map set_topical_data]. rewrite app_nil_r. reflexivity. }
    rewrite Hstep.
    rewrite (IH (mkState d (subscribers s) (frame s) (run_thread s)
                   (events s ++ calls (default [] (subscribers s !! key))
                                      ((key, v) :: d))) eq_refl).
    cbn [subscribers frame run_thread events]. rewrite <- app_assoc.
    reflexivity.
Qed.

(** X17. The dispatch step of lines 283-299 always ends with an empty
    store, whatever the store held and whoever subscribed; registry,
    transport and run flag are unchanged, topics are handled in the order
    of the store, and each callback runs while the store still holds its
    topic and the topics after it. *)
Theorem dispatch_empties_store (s : state) :
  dispatch s =
    (Ok tt,
     mkState [] (subscribers s) (frame s) (run_thread s)
       (events s ++ dispatch_trace (subscribers s) (topical_data s))).
Proof. unfold dispatch. apply dispatch_keys_all. reflexivity. Qed.

(** * The polling loop *)

Lemma run_stopped (n : nat) (s : state) :
  run_thread s = false -> run n s = (Ok tt, s).
Proof.
  intros H. induction n as [|n IH]; [reflexivity|].
  cbn [run]. unfold bind, run_pass. rewrite H. exact IH.
Qed.

(** X18. After [close], [run] returns at once: it pulls no frame, calls no
    callback and changes nothing but the run flag, however many frames are
    waiting. *)
Theorem close_stops_ingest (n : nat) (s : state) :
  (close ;; run n)%M s = (Ok tt, set_run_thread false s).
Proof.
  unfold bind, close, modify. apply run_stopped. reflexivity.
Qed.

Lemma drain_idle (s : state) : rx_queue (frame s) = [] -> drain s = (Ok tt, s).
Proof. intros H. unfold drain. rewrite H. reflexivity. Qed.

Lemma drain_from_keeps (queue : list (list Z)) :
  forall s r s', rx_queue (frame s) = queue -> drain_from queue s = (r, s') ->
  run_thread s' = run_thread s /\ subscribers s' = subscribers s /\
  tx_queue (frame s') = tx_queue (frame s).
Proof.
  induction queue as [|msg rest IH]; intros s r s' Hq H.
  - inversion H; subst. auto.
  - cbn [drain_from] in H. unfold bind at 1, modify in H. unfold bind in H.
    destruct (keeps_process_msg msg
                (set_frame (mkFrame rest (tx_queue (frame s))) s))
      as (Hf & Hr & Hs).
    destruct (process_msg msg
                (set_frame (mkFrame rest (tx_queue (frame s))) s))
      as [[[]|e] s1]; simpl in Hf, Hr, Hs.
    + destruct (IH s1 r s') as (H1 & H2 & H3);
        [rewrite Hf; reflexivity | exact H |].
      rewrite H1, H2, H3, Hr, Hs, Hf. auto.
    + inversion H; subst. rewrite Hr, Hs, Hf. auto.
Qed.

Lemma drain_from_leaves_store_empty (queue : list (list Z)) :
  forall s s', topical_data s = [] -> drain_from queue s = (Ok tt, s') ->
  topical_data s' = [].
Proof.
  induction queue as [|msg rest IH]; intros s s' He H.
  - inversion H; subst. exact He.
  - cbn [drain_from] in H. unfold bind at 1, modify in H. unfold bind in H.
    destruct (process_msg msg
                (set_frame (mkFrame rest (tx_queue (frame s))) s))
      as [[[]|e] s1] eqn:E; [|discriminate].
    apply (IH s1 s'); [|exact H].
    apply (process_msg_leaves_store_empty msg
             (set_frame (mkFrame rest (tx_queue (frame s))) s) s1);
      [exact He | exact E].
Qed.

(** X19. When the inner loop of [run] ends without exception on a store
    that was empty, the receive queue and the store are empty, transmit
    queue, registry and run flag are unchanged, and [get_data] raises
    [KeyError] for every topic: received data can only be read from inside
    a callback. *)
Theorem drain_leaves_nothing_behind (s s' : state) :
  topical_data s = [] -> drain s = (Ok tt, s') ->
  rx_queue (frame s') = [] /\ topical_data s' = [] /\
  tx_queue (frame s') = tx_queue (frame s) /\
  subscribers s' = subscribers s /\ run_thread s' = run_thread s /\
  forall topic, get_data topic s' = (Raise KeyError, s').
Proof.
  intros He H.
  pose proof (drain_empties_queue s s' H) as Hq.
  rewrite drain_eq in H.
  pose proof (drain_from_leaves_store_empty _ s s' He H) as Hs.
  destruct (drain_from_keeps _ s _ s' eq_refl H) as (H1 & H2 & H3).
  repeat split; auto.
  intros topic. unfold get_data. rewrite Hs. reflexivity.
Qed.

Lemma drain_leaves_nothing_behind_witness :
  rx_queue (frame (snd (drain (pulled two_queued [good_frame; good_frame]))))
    = [] /\
  topical_data (snd (drain (pulled two_queued [good_frame; good_frame]))) = [] /\
  tx_queue (frame (snd (drain (pulled two_queued [good_frame; good_frame]))))
    = tx_queue (frame (pulled two_queued [good_frame; good_frame])) /\
  subscribers (snd (drain (pulled two_queued [good_frame; good_frame])))
    = subscribers (pulled two_queued [good_frame; good_frame]) /\
  run_thread (snd (drain (pulled two_queued [good_frame; good_frame])))
    = run_thread (pulled two_queued [good_frame; good_frame]) /\
  forall topic,
    get_data topic (snd (drain (pulled two_queued [good_frame; good_frame])))
      = (Raise KeyError,
         snd (drain (pulled two_queued [good_frame; good_frame]))).
Proof.
  apply (drain_leaves_nothing_behind
           (pulled two_queued [good_frame; good_frame])).
  - reflexivity.
  - vm_compute. reflexivity.
Defined.

(** X20. With the run flag set, any number of passes of [run] does what
    its first pass over the receive queue does: once the queue is drained
    the further passes find nothing to do, and an exception of the first
    pass ends [run]. *)
Theorem run_polls_until_idle (n : nat) (s s' : state) (r : res unit) :
  run_thread s = true -> drain s = (r, s') ->
  run (S n) s = (r, s').
Proof.
  intros Hr H. cbn [run]. unfold bind, run_pass. rewrite Hr, H.
  destruct r as [[]|e]; [|reflexivity].
  pose proof (drain_empties_queue s s' H) as Hq.
  clear H Hr s. induction n as [|n IH]; [reflexivity|].
  cbn [run]. unfold bind, run_pass.
  destruct (run_thread s'); [|exact IH].
  rewrite (drain_idle s' Hq). exact IH.
Qed.

Lemma run_polls_until_idle_witness :
  run 4 (pulled two_queued [good_frame]) =
    (Ok tt,
     mkState [] {[ topic_t := [7%nat] ]} (mkFrame [] []) true
             [Called 7%nat [(topic_t, VStr [104; 105])]]).
Proof.
  apply (run_polls_until_idle 3 (pulled two_queued [good_frame])).
  - reflexivity.
  - vm_compute. reflexivity.
Defined.

(** * The size and the bytes of a numeric frame *)

Lemma rows_bytes_length (n : nat) (fs : list FormatSpecifier)
    (rows : list (list Z)) :
  Forall2 (row_shape n) fs rows ->
  Z.of_nat (length (concat (zip_with row_bytes fs rows))) =
    Z.of_nat n * total_width fs.
Proof.
  induction 1 as [|f row fs rows (Hf & Hl) _ IH]; [simpl; lia|].
  cbn [zip_with concat total_width]. rewrite length_app, Nat2Z.inj_add, IH.
  rewrite (row_bytes_length f row Hf), Hl. lia.
Qed.

(** X21. The frame [publish] returns for rows of [n] integers under
    numeric specifiers has len(topic) + 4 + ceil(dim/2) + n * (sum of the
    specifiers' widths) bytes, whatever the values are. *)
Theorem published_frame_length (topic : pystr) (fs : list FormatSpecifier)
    (rows : list (list Z)) (n : nat) (s : state) :
  ascii_text topic -> Forall2 (row_shape n) fs rows -> fs <> [] ->
  exists msg s',
    publish topic (map (map PInt) rows) (map name fs) s = (Ok msg, s') /\
    Z.of_nat (length msg) =
      Z.of_nat (length topic) + 4 + (Z.of_nat (length fs) + 1) / 2
        + Z.of_nat n * total_width fs.
Proof.
  intros Ht H2 Hne. eexists _, _. split.
  - apply (publish_numeric_rows topic fs rows n s Ht H2 Hne).
  - unfold numeric_frame. rewrite !length_app, !Nat2Z.inj_add.
    rewrite (rows_bytes_length n fs rows H2).
    rewrite packed_block_length, length_map.
    assert (Hd : Z.of_nat (Nat.div2 (S (length fs)))
                 = (Z.of_nat (length fs) + 1) / 2).
    { rewrite Nat.div2_div, Nat2Z.inj_div. f_equal. lia. }
    rewrite Hd. simpl length. lia.
Qed.

Lemma published_frame_length_witness :
  exists msg s',
    publish topic_t (map (map PInt) [[0; 0]; [7; 8]; [9; 9]])
      (map name [U8; S16; U32]) idle = (Ok msg, s') /\
    Z.of_nat (length msg) =
      Z.of_nat (length topic_t) + 4
        + (Z.of_nat (length [U8; S16; U32]) + 1) / 2
        + Z.of_nat 2 * total_width [U8; S16; U32].
Proof.
  apply (published_frame_length topic_t [U8; S16; U32]
           [[0; 0]; [7; 8]; [9; 9]] 2 idle).
  - repeat constructor; lia.
  - repeat constructor.
  - discriminate.
Defined.

Lemma packed_block_bytes (fs : list FormatSpecifier) :
  Forall byte (packed_block_spec (map code fs)).
Proof.
  induction fs as [|a|a b l IH] using pair_induction;
    cbn [map packed_block_spec].
  - constructor.
  - constructor; [|constructor].
    destruct a; (split; [vm_compute; discriminate | vm_compute; reflexivity]).
  - constructor; [|exact IH].
    destruct a, b;
      (split; [vm_compute; discriminate | vm_compute; reflexivity]).
Qed.

Lemma row_bytes_bytes (n : nat) (f : FormatSpecifier) (row : list Z) :
  row_in_range n f row -> Forall byte (row_bytes f row).
Proof.
  intros (Hf & _ & Hr).
  assert (H16 : forall us, Forall byte (flat_map bytes16 us)).
  { induction us as [|u us IH]; [constructor|].
    cbn [flat_map bytes16 app]. rewrite land_255, byte1_spec.
    repeat (constructor; [unfold byte; apply Z.mod_pos_bound; lia|]).
    exact IH. }
  assert (H32 : forall us, Forall byte (flat_map bytes32 us)).
  { induction us as [|u us IH]; [constructor|].
    cbn [flat_map bytes32 app].
    rewrite land_255, byte1_spec, byte2_spec, byte3_spec.
    repeat (constructor; [unfold byte; apply Z.mod_pos_bound; lia|]).
    exact IH. }
  destruct f; try discriminate; unfold row_bytes; auto.
  - apply (Forall_map_range (fun v => representable U8 v /\ off_the_slips U8 v));
      [|exact Hr].
    intros v [Hv Hz]. rewrite (unsigned8 v Hv Hz). simpl in Hv. unfold byte. lia.
  - apply (Forall_map_range (fun v => representable S8 v /\ off_the_slips S8 v));
      [|exact Hr].
    intros v [Hv Hz]. simpl in Hv, Hz. unfold to_unsigned, byte.
    rewrite gtb_case. split_sign; lia.
Qed.

(** X22. Every element of a frame [publish] returns is a byte (0..255), for
    at most 255 rows of in-range integers off the two slips and an ASCII
    topic. *)
Theorem published_frame_is_bytes (topic : pystr) (fs : list FormatSpecifier)
    (rows : list (list Z)) (n : nat) (s : state) :
  ascii_text topic -> fs <> [] -> Forall2 (row_in_range n) fs rows ->
  (length rows <= 255)%nat ->
  exists msg s',
    publish topic (map (map PInt) rows) (map name fs) s = (Ok msg, s') /\
    Forall byte msg.
Proof.
  intros Ht Hne H2 Hd. eexists _, _. split.
  - apply (publish_numeric_rows topic fs rows n s Ht
             (row_in_range_shape _ _ _ H2) Hne).
  - unfold numeric_frame. repeat apply Forall_app_2.
    + eapply Forall_impl; [exact Ht|]. unfold byte. simpl. intros; lia.
    + rewrite land_255, byte1_spec.
      repeat constructor; unfold byte; try lia; apply Z.mod_pos_bound; lia.
    + apply packed_block_bytes.
    + apply Forall_concat. clear Hne Hd.
      induction H2 as [|f row fs rows Hrow _ IH]; [constructor|].
      cbn [zip_with]. constructor; [|exact IH].
      apply (row_bytes_bytes n f row Hrow).
Qed.

Lemma published_frame_is_bytes_witness :
  exists msg s',
    publish topic_t (map (map PInt) [[-1; 5]; [-300; 0]])
      (map name [S8; S16]) idle = (Ok msg, s') /\
    Forall byte msg.
Proof.
  apply (published_frame_is_bytes topic_t [S8; S16] [[-1; 5]; [-300; 0]] 2 idle).
  - repeat constructor; lia.
  - discriminate.
  - repeat (constructor; [repeat split; try reflexivity;
                          repeat constructor; simpl; lia|]).
    constructor.
  - simpl. lia.
Defined.

(** * Subscriptions and calls *)

Lemma subscribe_all_registers (topic : pystr) (cbs : list callback) :
  forall s,
  exists s',
    subscribe_all topic cbs s = (Ok tt, s') /\
    default [] (subscribers s' !! topic)
      = default [] (subscribers s !! topic) ++ cbs /\
    topical_data s' = topical_data s /\ frame s' = frame s /\
    run_thread s' = run_thread s /\ events s' = events s.
Proof.
  induction cbs as [|cb cbs IH]; intros s.
  - exists s. rewrite app_nil_r. repeat split; reflexivity.
  - cbn [subscribe_all]. unfold bind.
    destruct (subscribe_registers topic cb s) as (s1 & Hs & Hl).
    assert (Hk : topical_data s1 = topical_data s /\ frame s1 = frame s /\
                 run_thread s1 = run_thread s /\ events s1 = events s).
    { unfold subscribe, modify in Hs. inversion Hs.
      destruct (subscribers s !! topic); auto. }
    rewrite Hs. destruct (IH s1) as (s' & H' & Hl' & Ht & Hf & Hr & He).
    exists s'. split; [exact H'|]. rewrite Hl', Hl.
    destruct Hk as (K1 & K2 & K3 & K4).
    change (default [] (Some ?l)) with l.
    rewrite <- app_assoc. cbn [app].
    split; [reflexivity|]. split; [congruence|]. split; [congruence|].
    split; congruence.
Qed.

(** X23. Callbacks subscribed to a topic are called in the order of
    their subscription, after those registered before, and a callback
    subscribed twice is called twice; each sees the store with the topic's
    value, and the store is empty afterwards. *)
Theorem subscribers_called_in_subscription_order (topic : pystr)
    (cbs : list callback) (v : value) (s : state) :
  topical_data s = [(topic, v)] ->
  exists s',
    (subscribe_all topic cbs ;; dispatch)%M s = (Ok tt, s') /\
    topical_data s' = [] /\
    events s' =
      events s ++ calls (default [] (subscribers s !! topic) ++ cbs)
                        [(topic, v)].
Proof.
  intros Hd. unfold bind.
  destruct (subscribe_all_registers topic cbs s)
    as (s1 & Hs & Hl & Ht & Hf & Hr & He).
  rewrite Hs. rewrite Hd in Ht.
  rewrite (dispatch_single topic v s1 Ht).
  eexists. split; [reflexivity|]. split; [reflexivity|].
  cbn [events]. rewrite Hl, He. reflexivity.
Qed.

Lemma subscribers_called_in_subscription_order_witness :
  exists s',
    (subscribe_all topic_t [3; 7; 3]%nat ;; dispatch)%M holding = (Ok tt, s') /\
    topical_data s' = [] /\
    events s' =
      events holding
        ++ calls (default [] (subscribers holding !! topic_t) ++ [3; 7; 3]%nat)
                 [(topic_t, VStr [104; 105])].
Proof.
  exact (subscribers_called_in_subscription_order topic_t [3; 7; 3]%nat
           (VStr [104; 105]) holding eq_refl).
Defined.

(** * A frame and the subscribers of another instance *)

(** X24. A callback subscribed through one instance is called when
    another instance of the class processes a frame of the topic: the
    registry is the class's, so the frame published by any sender reaches
    the callbacks registered through every instance. *)
Theorem frame_reaches_subscribers_of_other_instance (i j : nat) (w : world)
    (topic : pystr) (cb : callback) (fs : list FormatSpecifier)
    (rows : list (list Z)) (n : nat) (sender : state) :
  is_Some (w_instances w !! i) -> is_Some (w_instances w !! j) ->
  w_topical_data w = [] ->
  topic_text topic -> fs <> [] -> Forall2 (row_in_range n) fs rows ->
  Z.of_nat n < 65536 ->
  exists msg sender' w1 w2,
    publish topic (map (map PInt) rows) (map name fs) sender
      = (Ok msg, sender') /\
    via j (subscribe topic cb) w = Some (Ok tt, w1) /\
    via i (process_msg msg) w1 = Some (Ok tt, w2) /\
    w_topical_data w2 = [] /\
    w_events w2 =
      w_events w
        ++ calls (default [] (w_subscribers w !! topic) ++ [cb])
                 [(topic, VRows rows)].
Proof.
  intros [oi Hi] [oj Hj] He Ht Hne H2 Hn.
  destruct (subscribe_registers topic cb (load w oj)) as (s1 & Hs & Hl).
  assert (Hk : topical_data s1 = [] /\ events s1 = w_events w).
  { unfold subscribe, modify in Hs. inversion Hs.
    cbn [load subscribers].
    destruct (w_subscribers w !! topic); split; auto. }
  destruct Hk as [K1 K2].
  assert (Hi1 : is_Some (w_instances (unload j s1 w) !! i)).
  { unfold unload. cbn [w_instances]. apply lookup_lt_is_Some.
    rewrite length_insert. apply lookup_lt_is_Some. eauto. }
  destruct Hi1 as [oi1 Hi1].
  pose proof (process_decoded (numeric_frame topic fs rows n) _ topic
                (VRows rows) (load (unload j s1 w) oi1)
                (numeric_frame_decodes topic fs rows n
                   (load (unload j s1 w) oi1) Ht Hne H2 Hn K1)) as Hp.
  exists (numeric_frame topic fs rows n).
  eexists. exists (unload j s1 w). eexists.
  split; [|split; [|split; [|split]]].
  - apply (publish_numeric_rows topic fs rows n sender
             (topic_text_ascii _ Ht) (row_in_range_shape _ _ _ H2) Hne).
  - unfold via. rewrite Hj, Hs. reflexivity.
  - unfold via. rewrite Hi1, Hp. reflexivity.
  - reflexivity.
  - cbn [unload w_events events load subscribers w_subscribers].
    rewrite Hl, K2. reflexivity.
Qed.

Lemma frame_reaches_subscribers_of_other_instance_witness :
  exists msg sender' w1 w2,
    publish topic_t (map (map PInt) [[1; 65535; 32768]]) (map name [U16]) idle
      = (Ok msg, sender') /\
    via 1 (subscribe topic_t 5%nat) two_instances = Some (Ok tt, w1) /\
    via 0 (process_msg msg) w1 = Some (Ok tt, w2) /\
    w_topical_data w2 = [] /\
    w_events w2 =
      w_events two_instances
        ++ calls (default [] (w_subscribers two_instances !! topic_t)
                    ++ [5%nat])
                 [(topic_t, VRows [[1; 65535; 32768]])].
Proof.
  apply (frame_reaches_subscribers_of_other_instance 0 1 two_instances
           topic_t 5%nat [U16] [[1; 65535; 32768]] 3 idle).
  - eexists; reflexivity.
  - eexists; reflexivity.
  - reflexivity.
  - repeat constructor; lia.
  - discriminate.
  - repeat (constructor; [repeat split; try reflexivity;
                          repeat constructor; simpl; lia|]).
    constructor.
  - simpl. lia.
Defined.
